(** * Video summarisation services: embedding/search and transcription

    A shallow embedding of the two Flask services of the repository,
    [processing/embed_sentences.py] and [processing/whisper_transcribe.py],
    and the properties of their request handlers.

    Conventions of the model.
    - A request body is the value returned by [request.get_json()]: an
      arbitrary JSON value, [json].  Python's truthiness, [in], [x[k]],
      [x.get(k)], [==] and iteration are written out on [json] with the
      exceptions Python raises.
    - Handlers run in a state-and-exception monad.  An exception does not
      roll the state back, exactly as in Python; the [try/except] of each
      handler turns it into a 500 response.
    - Floating-point numbers (NumPy binary32, Python binary64) are idealised
      as exact rationals [Q]; [round(x, n)] is rounding to the nearest
      multiple of [10^-n], ties to even.
    - The sentence-embedding model, the speech model and the file-existence
      test are parameters; the FAISS flat L2 index is modelled as the list of
      its vectors with exhaustive search.
    - [print] calls are not modelled.  Calls into the models and into the
      index search are recorded in a ghost trace, so that "the model is not
      invoked" can be stated. *)

From Stdlib Require Import QArith Qround Lqa ZArith String Ascii List Lia.
From stdpp Require Import gmap strings list fin_maps pretty sorting.

Set Warnings "-register-all,-clear-no-such-hyp".

Local Open Scope string_scope.
Local Open Scope list_scope.
Local Open Scope Z_scope.

(** ** JSON values and the Python operations on them *)

Inductive json : Type :=
| JNull
| JBool (b : bool)
| JInt (z : Z)
| JFloat (q : Q)
| JStr (s : string)
| JArr (l : list json)
| JObj (kvs : list (string * json)).

(** A parsed JSON object is a Python [dict]: an association list whose first
    binding of a key is the one seen by lookups. *)
Fixpoint assoc {A : Type} (k : string) (kvs : list (string * A)) : option A :=
  match kvs with
  | [] => None
  | (k', v) :: rest => if String.eqb k k' then Some v else assoc k rest
  end.

Fixpoint dict_remove {A : Type} (k : string) (kvs : list (string * A))
  : list (string * A) :=
  match kvs with
  | [] => []
  | (k', v) :: rest =>
      if String.eqb k k' then dict_remove k rest
      else (k', v) :: dict_remove k rest
  end.

(** [bool(x)] *)
Definition truthy (x : json) : bool :=
  match x with
  | JNull => false
  | JBool b => b
  | JInt z => negb (z =? 0)
  | JFloat q => negb (Qeq_bool q 0)
  | JStr s => negb (String.eqb s "")
  | JArr l => match l with [] => false | _ => true end
  | JObj kvs => match kvs with [] => false | _ => true end
  end.

(** Numbers as Python compares them: [True == 1 == 1.0]. *)
Definition as_number (x : json) : option Q :=
  match x with
  | JBool b => Some (if b then 1%Q else 0%Q)
  | JInt z => Some (inject_Z z)
  | JFloat q => Some q
  | _ => None
  end.

(** [x == y] *)
Fixpoint py_eq (x y : json) {struct x} : bool :=
  match x, y with
  | JNull, JNull => true
  | JStr s, JStr t => String.eqb s t
  | JArr l, JArr m =>
      (fix go (l m : list json) : bool :=
         match l, m with
         | [], [] => true
         | a :: l', b :: m' => py_eq a b && go l' m'
         | _, _ => false
         end) l m
  | JObj l, JObj m =>
      Nat.eqb (length l) (length m) &&
      (fix go (l : list (string * json)) : bool :=
         match l with
         | [] => true
         | (k, v) :: l' =>
             match assoc k m with
             | Some w => py_eq v w
             | None => false
             end && go l'
         end) l
  | JBool b, _ => match as_number y with
                  | Some q => Qeq_bool (if b then 1 else 0) q
                  | None => false
                  end
  | JInt z, _ => match as_number y with
                 | Some q => Qeq_bool (inject_Z z) q
                 | None => false
                 end
  | JFloat p, _ => match as_number y with
                   | Some q => Qeq_bool p q
                   | None => false
                   end
  | _, _ => false
  end.

(** Exceptions raised by the Python operations and the libraries. *)
Inductive exn : Type :=
| KeyError (k : string)
| TypeError
| AttributeError
| IndexError
| ValueError
| AssertionError
| ModelError.

(** [str(e)]; only the text of [KeyError] is Python's own, the wording of
    the other messages is not modelled. *)
Definition exn_str (e : exn) : string :=
  match e with
  | KeyError k => "'" +:+ k +:+ "'"
  | TypeError => "TypeError"
  | AttributeError => "AttributeError"
  | IndexError => "IndexError"
  | ValueError => "ValueError"
  | AssertionError => ""
  | ModelError => "ModelError"
  end.

Inductive result (A : Type) : Type :=
| Ok (a : A)
| Raise (e : exn).
Arguments Ok {A} a.
Arguments Raise {A} e.

Definition of_option {A : Type} (e : exn) (o : option A) : result A :=
  match o with Some a => Ok a | None => Raise e end.

Fixpoint substringb (needle hay : string) : bool :=
  String.prefix needle hay ||
  match hay with
  | EmptyString => false
  | String _ hay' => substringb needle hay'
  end.

(** [k in x] for a string [k] *)
Definition py_contains (k : string) (x : json) : result bool :=
  match x with
  | JObj kvs => Ok (bool_decide (is_Some (assoc k kvs)))
  | JArr l => Ok (existsb (py_eq (JStr k)) l)
  | JStr s => Ok (substringb k s)
  | _ => Raise TypeError
  end.

(** [x[k]] for a string [k] *)
Definition py_getitem (x : json) (k : string) : result json :=
  match x with
  | JObj kvs => of_option (KeyError k) (assoc k kvs)
  | _ => Raise TypeError
  end.

(** [x.get(k, dflt)] *)
Definition py_get (x : json) (k : string) (dflt : json) : result json :=
  match x with
  | JObj kvs => Ok (default dflt (assoc k kvs))
  | _ => Raise AttributeError
  end.

(** The items a [for] loop or a comprehension sees. *)
Definition py_iter (x : json) : result (list json) :=
  match x with
  | JArr l => Ok l
  | JObj kvs => Ok (map (fun kv => JStr (fst kv)) kvs)
  | JStr s => Ok (map (fun c => JStr (String c EmptyString))
                      (list_ascii_of_string s))
  | _ => Raise TypeError
  end.

(** ** Rounding *)

(** Nearest integer, ties to even. *)
Definition round_half_even (q : Q) : Z :=
  let f := Qfloor q in
  match Qcompare (q - inject_Z f) (1 # 2) with
  | Lt => f
  | Gt => f + 1
  | Eq => if Z.even f then f else f + 1
  end.

(** [round(x, n)] *)
Definition py_round (q : Q) (n : nat) : Q :=
  Qred (inject_Z (round_half_even (q * inject_Z (10 ^ Z.of_nat n)))
        / inject_Z (10 ^ Z.of_nat n)).

(** ** HTTP responses *)

Record response : Type := mkResponse { status : Z; body : json }.

(** [jsonify(obj)] and [jsonify(obj), code] *)
Definition jsonify (obj : list (string * json)) : response :=
  mkResponse 200 (JObj obj).
Definition jsonify_code (obj : list (string * json)) (code : Z) : response :=
  mkResponse code (JObj obj).

(** ** The state-and-exception monad of the handlers *)

Definition M (S A : Type) : Type := S -> result A * S.

Definition ret {S A : Type} (a : A) : M S A := fun s => (Ok a, s).
Definition raise {S A : Type} (e : exn) : M S A := fun s => (Raise e, s).
Definition bind {S A B : Type} (c : M S A) (k : A -> M S B) : M S B :=
  fun s => match c s with
           | (Ok a, s') => k a s'
           | (Raise e, s') => (Raise e, s')
           end.
Definition lift {S A : Type} (r : result A) : M S A := fun s => (r, s).
Definition get_state {S : Type} : M S S := fun s => (Ok s, s).
Definition put_state {S : Type} (s : S) : M S unit := fun _ => (Ok tt, s).

Declare Scope py_scope.
Delimit Scope py_scope with py.
Notation "'let*' x ':=' c 'in' k" := (bind c (fun x => k))
  (at level 10, x name, c at level 100, k at level 200) : py_scope.
Notation "c ';;' k" := (bind c (fun _ => k))
  (at level 100, k at level 200, right associativity) : py_scope.

(** [try: body  except Exception as e: return jsonify({"error": str(e)}), 500] *)
Definition try_except {S : Type} (body : M S response) (s : S)
  : response * S :=
  match body s with
  | (Ok r, s') => (r, s')
  | (Raise e, s') => (jsonify_code [("error", JStr (exn_str e))] 500, s')
  end.

(** *** Vocabulary for reasoning about handlers *)

(** A handler body that never answers with the given status code. *)
Definition avoids {S : Type} (code : Z) (c : M S response) : Prop :=
  forall s r s', c s = (Ok r, s') -> status r <> code.

(** A computation that keeps a property of the state, whether it returns
    or raises. *)
Definition preserves {S A : Type} (P : S -> Prop) (c : M S A) : Prop :=
  forall s, P s -> P (snd (c s)).

(** What holds of every value a computation returns. *)
Definition post {S A : Type} (c : M S A) (Q : A -> Prop) : Prop :=
  forall s a s', c s = (Ok a, s') -> Q a.

Fixpoint result_mapM {A B : Type} (f : A -> result B) (l : list A)
  : result (list B) :=
  match l with
  | [] => Ok []
  | a :: l' =>
      match f a with
      | Raise e => Raise e
      | Ok b => match result_mapM f l' with
                | Raise e => Raise e
                | Ok bs => Ok (b :: bs)
                end
      end
  end.

(** [not data or key not in data] *)
Definition missing (key : string) (data : json) : result bool :=
  if truthy data then
    match py_contains key data with
    | Ok b => Ok (negb b)
    | Raise e => Raise e
    end
  else Ok true.

(** [str(i)] of an integer *)
Definition py_str (i : Z) : string := pretty i.

(** * The embedding and search service (embed_sentences.py) *)

Module Embed.

Local Open Scope py_scope.

(** A vector of (idealised) floats. *)
Abbreviation vec := (list Q).

(** [faiss.IndexFlatL2]: its dimension and the vectors added so far, in
    insertion order; the position of a vector is its index in the list. *)
Record IndexFlatL2 : Type := mkIndex { d : nat; vectors : list vec }.

Definition ntotal (ix : IndexFlatL2) : Z := Z.of_nat (length (vectors ix)).

(** A value of the [metadata] dict, [{"transcript_id": .., "video_id": ..}].
    The dict is only ever filled by [index_embeddings] and reloaded from the
    file [save_faiss_index] wrote, so its values have this shape. *)
Record meta_entry : Type :=
  mkMeta { transcript_id : json; video_id : json }.

(** The two persisted files, [FAISS_INDEX_PATH] and [METADATA_PATH]. *)
Record files : Type :=
  mkFiles { index_file : option IndexFlatL2;
            metadata_file : option (gmap string meta_entry) }.

(** Calls into the embedding model and the index search (ghost trace). *)
Inductive event : Type :=
| LoadModel
| Encode (texts : list json)
| Search (k : Z).

(** The module globals [model], [faiss_index], [metadata], the disk, and the
    trace.  [model] only records whether the model object is loaded. *)
Record state : Type :=
  mkState { model : bool;
            faiss_index : option IndexFlatL2;
            metadata : gmap string meta_entry;
            disk : files;
            trace : list event }.

Definition set_model (b : bool) (s : state) : state :=
  mkState b (faiss_index s) (metadata s) (disk s) (trace s).
Definition set_faiss_index (ix : option IndexFlatL2) (s : state) : state :=
  mkState (model s) ix (metadata s) (disk s) (trace s).
Definition set_metadata (m : gmap string meta_entry) (s : state) : state :=
  mkState (model s) (faiss_index s) m (disk s) (trace s).
Definition set_disk (f : files) (s : state) : state :=
  mkState (model s) (faiss_index s) (metadata s) f (trace s).
Definition log (e : event) (s : state) : state :=
  mkState (model s) (faiss_index s) (metadata s) (disk s) (trace s ++ [e]).

Definition modify (f : state -> state) : M state unit :=
  fun s => (Ok tt, f s).

(** The state of a freshly started process over a given disk. *)
Definition boot (f : files) : state := mkState false None ∅ f [].

Definition embedding_dim : nat := 384.

(** The default of the [EMBEDDING_MODEL] setting. *)
Definition EMBEDDING_MODEL : string := "all-MiniLM-L6-v2".

(** *** The FAISS flat index *)

(** Squared Euclidean distance. *)
Fixpoint sq_l2 (x y : vec) : Q :=
  match x, y with
  | a :: x', b :: y' => ((a - b) * (a - b) + sq_l2 x' y')%Q
  | _, _ => 0%Q
  end.

Fixpoint insert_hit (h : Q * Z) (hs : list (Q * Z)) : list (Q * Z) :=
  match hs with
  | [] => [h]
  | h' :: rest =>
      if Qle_bool (fst h) (fst h') then h :: hs else h' :: insert_hit h rest
  end.

(** [index.search(x, k)] for one query row: the [k] nearest vectors as
    (distance, position) by increasing distance, padded with position [-1]
    when the index holds fewer than [k] vectors.  Among equal distances the
    lower position comes first (the library leaves that order open). *)
Definition faiss_search (ix : IndexFlatL2) (x : vec) (k : nat)
  : list (Q * Z) :=
  let scored := imap (fun i v => (sq_l2 x v, Z.of_nat i)) (vectors ix) in
  let sorted := foldr insert_hit [] scored in
  take k sorted ++ replicate (k - length sorted) (0%Q, -1).

(** [np.array(rows, dtype=np.float32)]: every row a list of numbers.
    (NumPy would also parse numeric strings; that is not modelled.) *)
Definition np_row (row : json) : result vec :=
  match row with
  | JArr xs => result_mapM (fun x => of_option ValueError (as_number x)) xs
  | _ => Raise ValueError
  end.
Definition np_array (rows : list json) : result (list vec) :=
  result_mapM np_row rows.

(** *** Lazily initialised globals *)

(** [get_model()] *)
Definition get_model : M state unit :=
  let* s := get_state in
  if model s then ret tt
  else modify (fun s => set_model true (log LoadModel s)).

(** [get_faiss_index()] *)
Definition get_faiss_index : M state IndexFlatL2 :=
  let* s := get_state in
  match faiss_index s with
  | Some ix => ret ix
  | None =>
      match index_file (disk s) with
      | Some ix =>
          modify (set_faiss_index (Some ix));;
          match metadata_file (disk s) with
          | Some m => modify (set_metadata m)
          | None => ret tt
          end;;
          ret ix
      | None =>
          let ix := mkIndex embedding_dim [] in
          modify (set_faiss_index (Some ix));;
          ret ix
      end
  end.

(** [save_faiss_index()]; writing the files is assumed to succeed. *)
Definition save_faiss_index : M state unit :=
  let* s := get_state in
  match faiss_index s with
  | Some ix =>
      modify (set_disk (mkFiles (Some ix) (Some (metadata s))))
  | None => ret tt
  end.

(** [index.add(vectors)] on the global index object. *)
Definition faiss_add (vs : list vec) : M state unit :=
  let* s := get_state in
  match faiss_index s with
  | Some ix =>
      if forallb (fun v => Nat.eqb (length v) (d ix)) vs then
        modify (set_faiss_index (Some (mkIndex (d ix) (vectors ix ++ vs))))
      else raise AssertionError
  | None => raise AttributeError
  end.

(** [index.ntotal] read through the global. *)
Definition read_ntotal : M state Z :=
  let* s := get_state in
  match faiss_index s with
  | Some ix => ret (ntotal ix)
  | None => raise AttributeError
  end.

(** *** GET /health *)

Definition health (s : state) : response * state :=
  match get_faiss_index s with
  | (Ok ix, s') =>
      (jsonify [("status", JStr "ok"); ("model", JStr EMBEDDING_MODEL);
                ("index_size", JInt (ntotal ix))], s')
  | (Raise e, s') => (jsonify_code [("error", JStr (exn_str e))] 500, s')
  end.

(** *** POST /index *)

(** The loop [for i, emb in enumerate(embeddings_data)]. *)
Fixpoint update_metadata (vid : json) (start_idx : Z) (i : Z)
    (items : list json) : M state unit :=
  match items with
  | [] => ret tt
  | emb :: rest =>
      let* id := lift (py_getitem emb "id") in
      modify (fun s =>
        set_metadata (<[py_str (start_idx + i) := mkMeta id vid]> (metadata s)) s);;
      update_metadata vid start_idx (i + 1) rest
  end.

Definition index_embeddings_body (data : json) : M state response :=
  let* absent := lift (missing "embeddings" data) in
  if absent then
    ret (jsonify_code [("error", JStr "embeddings is required")] 400)
  else
    let* vid := lift (py_get data "video_id" JNull) in
    let* embeddings_data := lift (py_getitem data "embeddings") in
    if negb (truthy embeddings_data) then
      ret (jsonify [("message", JStr "No embeddings to index")])
    else
      get_faiss_index;;
      let* items := lift (py_iter embeddings_data) in
      let* rows := lift (result_mapM (fun e => py_getitem e "embedding") items) in
      let* vs := lift (np_array rows) in
      let* start_idx := read_ntotal in
      faiss_add vs;;
      update_metadata vid start_idx 0 items;;
      save_faiss_index;;
      let* total := read_ntotal in
      ret (jsonify
             [("message",
               JStr ("Indexed " +:+ py_str (Z.of_nat (length items)) +:+ " vectors"));
              ("total_vectors", JInt total)]).

Definition index_embeddings (data : json) : state -> response * state :=
  try_except (index_embeddings_body data).

(** *** POST /clear *)

Definition clear_index : state -> response * state :=
  try_except
    (modify (set_faiss_index (Some (mkIndex embedding_dim [])));;
     modify (set_metadata ∅);;
     save_faiss_index;;
     ret (jsonify [("message", JStr "Index cleared")])).

(** *** The handlers that call the embedding model *)

Section WithModel.

(** [embedding_model.encode(texts, show_progress_bar=False)]: one row per
    text, or an exception ([None]). *)
Variable encode : list json -> option (list vec).

Definition call_encode (texts : list json) : M state (list vec) :=
  modify (log (Encode texts));;
  lift (of_option ModelError (encode texts)).

(** **** POST /embed *)

Definition embed_body (data : json) : M state response :=
  let* absent := lift (missing "segments" data) in
  if absent then
    ret (jsonify_code [("error", JStr "segments is required")] 400)
  else
    let* segments := lift (py_getitem data "segments") in
    if negb (truthy segments) then
      ret (jsonify [("embeddings", JArr [])])
    else
      get_model;;
      let* items := lift (py_iter segments) in
      let* texts := lift (result_mapM (fun seg => py_getitem seg "text") items) in
      let* ids := lift (result_mapM (fun seg => py_getitem seg "id") items) in
      let* embeddings := call_encode texts in
      ret (jsonify
             [("embeddings",
               JArr (zip_with
                       (fun seg_id embedding =>
                          JObj [("id", seg_id);
                                ("embedding", JArr (map JFloat embedding))])
                       ids embeddings))]).

Definition embed (data : json) : state -> response * state :=
  try_except (embed_body data).

(** **** POST /search *)

(** [top_k] as an integer.  A [top_k] that is not a JSON integer (or
    boolean) is taken to raise where it is first used in arithmetic. *)
Definition py_int (x : json) : result Z :=
  match x with
  | JInt z => Ok z
  | JBool b => Ok (if b then 1 else 0)
  | _ => Raise TypeError
  end.

(** [min(top_k * 10, index.ntotal) if video_id else min(top_k, index.ntotal)] *)
Definition search_k (top_k : Z) (vid : json) (total : Z) : Z :=
  if truthy vid then Z.min (top_k * 10) total else Z.min top_k total.

(** [1 / (1 + dist)] *)
Definition similarity (dist : Q) : Q := (1 / (1 + dist))%Q.

(** [round(float(similarity), 4)], the score written into the response. *)
Definition reported_similarity (dist : Q) : Q := py_round (similarity dist) 4.

(** The loop [for dist, idx in zip(distances[0], indices[0])], with its
    [continue]s and its [break]. *)
Fixpoint collect (vid : json) (top_k : Z) (md : gmap string meta_entry)
    (hits : list (Q * Z)) (results : list json) : list json :=
  match hits with
  | [] => results
  | (dist, idx) :: rest =>
      if idx =? -1 then collect vid top_k md rest results
      else
        match md !! py_str idx with
        | None => collect vid top_k md rest results
        | Some meta =>
            if truthy vid && negb (py_eq (video_id meta) vid) then
              collect vid top_k md rest results
            else
              let results' :=
                results ++
                [JObj [("transcript_id", transcript_id meta);
                       ("video_id", video_id meta);
                       ("similarity", JFloat (reported_similarity dist))]] in
              if Z.of_nat (length results') >=? top_k then results'
              else collect vid top_k md rest results'
        end
  end.

(** [index.search(query_vector, search_k)] followed by [distances[0]],
    [indices[0]]: the query rows must have the index's dimension and [k]
    must be positive (the library asserts both). *)
Definition index_search (qs : list vec) (k : Z) : M state (list (Q * Z)) :=
  modify (log (Search k));;
  let* s := get_state in
  match faiss_index s with
  | None => raise AttributeError
  | Some ix =>
      if negb (forallb (fun q => Nat.eqb (length q) (d ix)) qs) then
        raise AssertionError
      else if negb (0 <? k) then raise AssertionError
      else
        match qs with
        | [] => raise IndexError
        | q :: _ => ret (faiss_search ix q (Z.to_nat k))
        end
  end.

Definition search_body (data : json) : M state response :=
  let* absent := lift (missing "query" data) in
  if absent then
    ret (jsonify_code [("error", JStr "query is required")] 400)
  else
    let* query := lift (py_getitem data "query") in
    let* vid := lift (py_get data "video_id" JNull) in
    let* top_k := lift (py_get data "top_k" (JInt 10)) in
    get_model;;
    get_faiss_index;;
    let* total := read_ntotal in
    if total =? 0 then ret (jsonify [("results", JArr [])])
    else
      let* query_vector := call_encode [query] in
      let* k := lift (py_int top_k) in
      let* hits := index_search query_vector (search_k k vid total) in
      let* s := get_state in
      ret (jsonify [("results", JArr (collect vid k (metadata s) hits []))]).

Definition search (data : json) : state -> response * state :=
  try_except (search_body data).

End WithModel.

(** *** Runs of the service *)

(** What can happen to the process: a request to one of its routes, or a
    restart, which keeps the disk and resets the globals. *)
Inductive op : Type :=
| Health
| EmbedReq (data : json)
| IndexReq (data : json)
| SearchReq (data : json)
| ClearReq
| Restart.

Definition step (encode : list json -> option (list vec)) (o : op) (s : state)
  : state :=
  match o with
  | Health => snd (health s)
  | EmbedReq data => snd (embed encode data s)
  | IndexReq data => snd (index_embeddings data s)
  | SearchReq data => snd (search encode data s)
  | ClearReq => snd (clear_index s)
  | Restart => boot (disk s)
  end.

Definition run (encode : list json -> option (list vec)) (ops : list op)
    (s : state) : state :=
  foldl (fun s o => step encode o s) s ops.

(** *** Vocabulary of the properties *)

(** The state after the lazy initialisation of the index, and the index the
    handlers then work on. *)
Definition loaded (s : state) : state := snd (get_faiss_index s).
Definition current_index (s : state) : IndexFlatL2 :=
  match faiss_index (loaded s) with
  | Some ix => ix
  | None => mkIndex embedding_dim []
  end.

(** Number of vectors held in memory (none before the index exists). *)
Definition vector_count (s : state) : nat :=
  match faiss_index s with
  | Some ix => length (vectors ix)
  | None => 0%nat
  end.

(** The vectors held in memory, by position. *)
Definition stored (s : state) : list vec :=
  match faiss_index s with
  | Some ix => vectors ix
  | None => []
  end.

(** The index, the metadata and the files: the state without the model
    handle and the trace. *)
Definition store (s : state)
  : option IndexFlatL2 * gmap string meta_entry * files :=
  (faiss_index s, metadata s, disk s).

(** The keys of positions [0 .. n-1]. *)
Definition position_keys (n : nat) : gset string :=
  list_to_set (map (fun i => py_str (Z.of_nat i)) (seq 0 n)).

(** The metadata has exactly one entry per position of the index. *)
Definition consistent (ix : IndexFlatL2) (m : gmap string meta_entry) : Prop :=
  dom m = position_keys (length (vectors ix)).

(** The persisted pair is absent, or was written together. *)
Definition disk_ok (f : files) : Prop :=
  match index_file f with
  | None => True
  | Some ix => exists m, metadata_file f = Some m /\ consistent ix m
  end.

Definition inv (s : state) : Prop :=
  match faiss_index s with
  | Some ix => consistent ix (metadata s)
  | None => metadata s = ∅
  end /\ disk_ok (disk s).

(** Every record of an /index body carries an [id]. *)
Definition records_have_id (data : json) : bool :=
  match py_getitem data "embeddings" with
  | Ok recs =>
      match py_iter recs with
      | Ok items =>
          forallb (fun e => match py_getitem e "id" with
                            | Ok _ => true
                            | Raise _ => false
                            end) items
      | Raise _ => true
      end
  | Raise _ => true
  end.

Definition well_formed (o : op) : Prop :=
  match o with
  | IndexReq data => records_have_id data = true
  | _ => True
  end.

Definition is_index (o : op) : bool :=
  match o with IndexReq _ => true | _ => false end.

Definition keeps_positions (o : op) : bool :=
  match o with ClearReq | Restart => false | _ => true end.

(** A record of an /index body: its id and its vector of dimension [n]. *)
Definition record_of (n : nat) (rec id : json) (v : vec) : Prop :=
  py_getitem rec "id" = Ok id /\
  exists row, py_getitem rec "embedding" = Ok row /\
              np_row row = Ok v /\ length v = n.



(** The list under ["results"] of a response body. *)
Definition results_of (r : response) : list json :=
  match body r with
  | JObj kvs => match assoc "results" kvs with
                | Some (JArr l) => l
                | _ => []
                end
  | _ => []
  end.

(** The list under ["embeddings"] of a response body. *)
Definition embeddings_of (r : response) : list json :=
  match body r with
  | JObj kvs => match assoc "embeddings" kvs with
                | Some (JArr l) => l
                | _ => []
                end
  | _ => []
  end.

(** The metadata after the entries of a batch with the given ids have been
    recorded from position [start_idx + i] on. *)
Fixpoint record_entries (vid : json) (start_idx i : Z) (ids : list json)
    (m : gmap string meta_entry) : gmap string meta_entry :=
  match ids with
  | [] => m
  | id :: rest =>
      record_entries vid start_idx (i + 1) rest
        (<[py_str (start_idx + i) := mkMeta id vid]> m)
  end.

(** The state after a batch with the given ids and vectors has been added
    and saved. *)
Definition indexed (vid : json) (ids : list json) (vs : list vec) (s : state)
  : state :=
  let ix := current_index s in
  let ix' := mkIndex (d ix) (vectors ix ++ vs) in
  let m := record_entries vid (ntotal ix) 0 ids (metadata (loaded s)) in
  mkState (model s) (Some ix') m (mkFiles (Some ix') (Some m)) (trace s).

(** The number under ["similarity"] of one result. *)
Definition result_similarity (r : json) : option Q :=
  match py_getitem r "similarity" with
  | Ok (JFloat x) => Some x
  | _ => None
  end.

(** What the search loop appends for one hit, if it is not skipped. *)
Definition survivor (vid : json) (md : gmap string meta_entry) (h : Q * Z)
  : option json :=
  if snd h =? -1 then None
  else
    match md !! py_str (snd h) with
    | None => None
    | Some meta =>
        if truthy vid && negb (py_eq (video_id meta) vid) then None
        else Some (JObj [("transcript_id", transcript_id meta);
                         ("video_id", video_id meta);
                         ("similarity", JFloat (reported_similarity (fst h)))])
    end.

(** The index is empty in memory (if created) and on disk. *)
Definition cleared (s : state) : Prop :=
  match faiss_index s with
  | Some ix => vectors ix = []
  | None => True
  end /\
  match index_file (disk s) with
  | Some ix => vectors ix = []
  | None => False
  end.

(** A result whose score is the rounded [1 / (1 + dist)] of a distance. *)
Definition scored (r : json) : Prop :=
  exists dist, (0 <= dist)%Q /\
               result_similarity r = Some (reported_similarity dist).

(** The state a handler leaves is, as far as the store goes, the one it
    found or the one after the lazy initialisation. *)
Definition store_kept (s0 s : state) : Prop :=
  store s = store s0 \/ store s = store (loaded s0).

(** [s'] keeps every stored vector and metadata entry of [s] in place. *)
Definition extends (s s' : state) : Prop :=
  stored s `prefix_of` stored s' /\ metadata s ⊆ metadata s'.

(** The id and the vector of a record of an /index body. *)
Definition record_id (rec : json) : json :=
  match py_getitem rec "id" with
  | Ok id => id
  | Raise _ => JNull
  end.

Definition record_vector (rec : json) : vec :=
  match py_getitem rec "embedding" with
  | Ok row => match np_row row with
              | Ok v => v
              | Raise _ => []
              end
  | Raise _ => []
  end.

(** An /index body with a non-empty list of records that all carry an id
    and a vector of dimension [n]. *)
Definition batch_of (n : nat) (kvs : list (string * json))
    (recs : list json) : Prop :=
  assoc "embeddings" kvs = Some (JArr recs) /\
  recs <> [] /\
  Forall (fun rec => exists id v, record_of n rec id v) recs.


(** The routes that only read the index. *)
Definition reads_only (o : op) : bool :=
  match o with
  | Health | EmbedReq _ | SearchReq _ => true
  | _ => false
  end.

(** How often the trace records a load of the embedding model. *)
Fixpoint load_count (tr : list event) : nat :=
  match tr with
  | [] => 0%nat
  | LoadModel :: tr' => S (load_count tr')
  | _ :: tr' => load_count tr'
  end.

(** The model was loaded at most once, and not at all while the global is
    still unset. *)
Definition loaded_once (s : state) : Prop :=
  (load_count (trace s) <= 1)%nat /\
  (model s = false -> load_count (trace s) = 0%nat).

(** A restarted process would find on disk the index and the metadata this
    process works on. *)
Definition synced (s : state) : Prop :=
  faiss_index (loaded (boot (disk s))) = faiss_index (loaded s) /\
  metadata (loaded (boot (disk s))) = metadata (loaded s).

(** Order of two hits of one search: by distance, padding last. *)
Definition hit_le (h1 h2 : Q * Z) : Prop :=
  snd h2 = -1 \/ (0 <= fst h1 /\ fst h1 <= fst h2)%Q.

(** Order of two found vectors: by distance. *)
Definition dist_le (h1 h2 : Q * Z) : Prop := (fst h1 <= fst h2)%Q.

(** The first result scores at least as high as the second. *)
Definition sim_ge (r1 r2 : json) : Prop :=
  exists x1 x2, result_similarity r1 = Some x1 /\
                result_similarity r2 = Some x2 /\ (x2 <= x1)%Q.

(** A result built from a metadata entry that passes the video filter. *)
Definition from_metadata (data : json) (md : gmap string meta_entry)
    (r : json) : Prop :=
  exists key meta,
    md !! key = Some meta /\
    py_getitem r "transcript_id" = Ok (transcript_id meta) /\
    py_getitem r "video_id" = Ok (video_id meta) /\
    (forall vid, py_get data "video_id" JNull = Ok vid ->
                 truthy vid = true -> py_eq (video_id meta) vid = true).

(** What holds of the value and the final state of a computation that
    returns. *)
Definition post_state {A : Type} (c : M state A)
    (Q : A -> state -> Prop) : Prop :=
  forall s a s', c s = (Ok a, s') -> Q a s'.

(** *** Concrete instances used in the examples *)

Definition toy_encode (texts : list json) : option (list vec) :=
  Some (map (fun _ => repeat 0%Q embedding_dim) texts).

(** The vector [(x, 0, ..., 0)] as a JSON list. *)
Definition axis_vector (x : Z) : json :=
  JArr (JInt x :: repeat (JInt 0) (embedding_dim - 1)).

Definition record (id : Z) (x : Z) : json :=
  JObj [("id", JInt id); ("embedding", axis_vector x)].

Definition no_files : files := mkFiles None None.

(** Eleven vectors of video 8 at positions 0..10, near the origin, then one
    vector of video 7 at position 11, far away. *)
Definition two_videos : state :=
  snd (index_embeddings
         (JObj [("video_id", JInt 7); ("embeddings", JArr [record 12 1000])])
         (snd (index_embeddings
                 (JObj [("video_id", JInt 8);
                        ("embeddings",
                         JArr (map (fun i => record i i)
                                   [1; 2; 3; 4; 5; 6; 7; 8; 9; 10; 11]))])
                 (boot no_files)))).

End Embed.

(** * The transcription service (whisper_transcribe.py) *)

Module Whisper.

Local Open Scope py_scope.

(** A segment as the speech model returns it. *)
Record raw_segment : Type :=
  mkRaw { seg_start : Q; seg_end : Q; seg_text : string;
          seg_avg_logprob : option Q }.

(** The dict returned by [whisper_model.transcribe]. *)
Record transcription : Type :=
  mkTranscription { segments : list raw_segment; language : option string }.

Inductive event : Type :=
| LoadModel
| Transcribe (audio_path language : json).

(** The module global [model] (loaded or not) and the ghost trace. *)
Record state : Type := mkState { model : bool; trace : list event }.

Definition log (e : event) (s : state) : state :=
  mkState (model s) (trace s ++ [e]).

(** The default of the [WHISPER_MODEL] setting. *)
Definition WHISPER_MODEL : string := "medium".

(** [get_model()] *)
Definition get_model : M state unit :=
  fun s => if model s then (Ok tt, s)
           else (Ok tt, mkState true (trace s ++ [LoadModel])).

(** Whitespace removed by [str.strip()], on single-byte characters. *)
Definition is_space (c : ascii) : bool :=
  let n := nat_of_ascii c in
  (Nat.eqb n 32 || (Nat.leb 9 n && Nat.leb n 13)
   || (Nat.leb 28 n && Nat.leb n 31))%bool.

Fixpoint lstrip (s : string) : string :=
  match s with
  | String c s' => if is_space c then lstrip s' else s
  | EmptyString => EmptyString
  end.

Fixpoint rstrip (s : string) : string :=
  match s with
  | EmptyString => EmptyString
  | String c s' =>
      match rstrip s' with
      | EmptyString => if is_space c then EmptyString else String c EmptyString
      | t => String c t
      end
  end.

Definition strip (s : string) : string := rstrip (lstrip s).

(** The text an f-string puts for a value; only what a path can be. *)
Definition py_format (x : json) : string :=
  match x with
  | JStr s => s
  | JInt z => py_str z
  | JBool b => if b then "True" else "False"
  | JNull => "None"
  | _ => ""
  end.

(** One entry of the [segments] list of the response. *)
Definition format_segment (seg : raw_segment) : list (string * json) :=
  [("start", JFloat (py_round (seg_start seg) 2));
   ("end", JFloat (py_round (seg_end seg) 2));
   ("text", JStr (strip (seg_text seg)));
   ("confidence",
    match seg_avg_logprob seg with
    | Some lp => JFloat (py_round (lp * -1) 3)
    | None => JNull
    end)].

(** [segments[-1]['end'] if segments else 0] *)
Definition duration (segs : list (list (string * json))) : json :=
  match last segs with
  | Some seg => default JNull (assoc "end" seg)
  | None => JInt 0
  end.

Section WithEnv.

(** [os.path.exists(p)]; [None] when the call raises (a path that is
    neither a string nor a number). *)
Variable path_exists : json -> option bool.

(** [whisper_model.transcribe(audio_path, language=.., ...)]; [None] when it
    raises. *)
Variable whisper_transcribe : json -> json -> option transcription.

Definition transcribe_body (data : json) : M state response :=
  let* absent := lift (missing "audio_path" data) in
  if absent then
    ret (jsonify_code [("error", JStr "audio_path is required")] 400)
  else
    let* audio_path := lift (py_getitem data "audio_path") in
    let* found := lift (of_option TypeError (path_exists audio_path)) in
    if negb found then
      ret (jsonify_code
             [("error",
               JStr ("Audio file not found: " +:+ py_format audio_path))] 404)
    else
      get_model;;
      let* lang := lift (py_get data "language" JNull) in
      (fun s => (Ok tt, log (Transcribe audio_path lang) s));;
      let* result := lift (of_option ModelError
                             (whisper_transcribe audio_path lang)) in
      let segs := map format_segment (segments result) in
      ret (jsonify
             [("segments", JArr (map JObj segs));
              ("language", JStr (default "unknown" (language result)));
              ("duration", duration segs)]).

Definition transcribe (data : json) : state -> response * state :=
  try_except (transcribe_body data).

(** GET /health *)
Definition health (s : state) : response * state :=
  (jsonify [("status", JStr "ok"); ("model", JStr WHISPER_MODEL);
            ("model_loaded", JBool (model s))], s).

(** *** Runs and vocabulary of the properties *)

(** The process handling a sequence of /transcribe request bodies. *)
Definition run (datas : list json) (s : state) : state :=
  foldl (fun s data => snd (transcribe data s)) s datas.

End WithEnv.

(** How often the trace records a load of the speech model. *)
Fixpoint load_count (tr : list event) : nat :=
  match tr with
  | [] => 0%nat
  | LoadModel :: tr' => S (load_count tr')
  | _ :: tr' => load_count tr'
  end.

Definition loaded_once (s : state) : Prop :=
  (load_count (trace s) <= 1)%nat /\
  (model s = false -> load_count (trace s) = 0%nat).



(** The state once the model has been asked for and called. *)
Definition after_call (p lang : json) (s : state) : state :=
  log (Transcribe p lang)
      (if model s then s else mkState true (trace s ++ [LoadModel])).

(** The list under ["segments"] of a response body. *)
Definition segments_of (r : response) : list json :=
  match body r with
  | JObj kvs => match assoc "segments" kvs with
                | Some (JArr l) => l
                | _ => []
                end
  | _ => []
  end.

End Whisper.

(** * Properties of rounding *)

Module RoundingProps.

Local Open Scope Q_scope.

Lemma round_half_even_range q :
  (Qfloor q <= round_half_even q <= Qfloor q + 1)%Z.
Proof.
  unfold round_half_even.
  destruct (Qcompare _ _); [destruct (Z.even _)|..]; lia.
Qed.

(** The rounded value is within one half of the argument. *)
Lemma round_half_even_near q :
  inject_Z (round_half_even q) - (1 # 2) <= q /\
  q <= inject_Z (round_half_even q) + (1 # 2).
Proof.
  unfold round_half_even.
  pose proof (Qfloor_le q) as Hlo. pose proof (Qlt_floor q) as Hhi.
  rewrite inject_Z_plus in Hhi. change (inject_Z 1) with 1 in Hhi.
  destruct (Qcompare_spec (q - inject_Z (Qfloor q)) (1 # 2)) as [He|Hl|Hg];
    [destruct (Z.even (Qfloor q))|..];
    rewrite ?inject_Z_plus; change (inject_Z 1) with 1; lra.
Qed.

Lemma round_half_even_comp q q' :
  q == q' -> round_half_even q = round_half_even q'.
Proof.
  intros H. unfold round_half_even.
  rewrite (Qfloor_comp _ _ H).
  assert (q - inject_Z (Qfloor q') == q' - inject_Z (Qfloor q')) as E
    by (rewrite H; reflexivity).
  by rewrite (Qcompare_comp _ _ E _ _ (Qeq_refl (1 # 2))).
Qed.

Lemma round_half_even_Z z : round_half_even (inject_Z z) = z.
Proof.
  unfold round_half_even. rewrite Qfloor_Z.
  destruct (Qcompare_spec (inject_Z z - inject_Z z) (1 # 2)) as [H|H|H];
    [exfalso; lra | done | exfalso; lra].
Qed.

Lemma round_half_even_mono q1 q2 :
  q1 <= q2 -> (round_half_even q1 <= round_half_even q2)%Z.
Proof.
  intros Hle. pose proof (Qfloor_resp_le _ _ Hle) as Hf.
  pose proof (round_half_even_range q1) as H1.
  pose proof (round_half_even_range q2) as H2.
  destruct (Z.eq_dec (Qfloor q1) (Qfloor q2)) as [Heq|Hne]; [|lia].
  clear H1 H2 Hf. unfold round_half_even. rewrite <- Heq.
  destruct (Qcompare_spec (q1 - inject_Z (Qfloor q1)) (1 # 2)) as [He|Hl|Hg];
    destruct (Qcompare_spec (q2 - inject_Z (Qfloor q1)) (1 # 2)) as [He'|Hl'|Hg'];
    try (destruct (Z.even (Qfloor q1))); try lia; exfalso; lra.
Qed.

Lemma py_round_4 q :
  py_round q 4 == inject_Z (round_half_even (q * 10000)) / 10000.
Proof. unfold py_round. rewrite Qred_correct. reflexivity. Qed.

Lemma py_round_4_mono q1 q2 : q1 <= q2 -> py_round q1 4 <= py_round q2 4.
Proof.
  intros Hle. rewrite !py_round_4.
  assert (q1 * 10000 <= q2 * 10000) as H by lra.
  apply round_half_even_mono in H. rewrite Zle_Qle in H.
  unfold Qdiv. apply Qmult_le_compat_r; [done|]. by vm_compute.
Qed.



Lemma py_round_comp q q' n : q == q' -> py_round q n = py_round q' n.
Proof.
  intros H. unfold py_round. apply Qred_complete.
  set (p := inject_Z (10 ^ Z.of_nat n)).
  rewrite (round_half_even_comp (q * p) (q' * p)); [reflexivity|].
  by rewrite H.
Qed.

End RoundingProps.

(** * Properties of the handler monad *)

Module MonadProps.

Local Open Scope py_scope.

(** ** Running the monad *)

Lemma bind_ok {S A B : Type} (c : M S A) (k : A -> M S B) s a s' :
  c s = (Ok a, s') -> bind c k s = k a s'.
Proof. intros H. unfold bind. by rewrite H. Qed.

Lemma bind_raise {S A B : Type} (c : M S A) (k : A -> M S B) s e s' :
  c s = (Raise e, s') -> bind c k s = (Raise e, s').
Proof. intros H. unfold bind. by rewrite H. Qed.

Lemma bind_lift_ok {S A B : Type} (r : result A) (k : A -> M S B) s a :
  r = Ok a -> bind (lift r) k s = k a s.
Proof. by intros ->. Qed.

Lemma bind_lift_raise {S A B : Type} (r : result A) (k : A -> M S B) s e :
  r = Raise e -> bind (lift r) k s = (Raise e, s).
Proof. by intros ->. Qed.

Lemma avoids_ret {S : Type} code (r : response) :
  status r <> code -> avoids (S := S) code (ret r).
Proof. intros H s r' s' [= <- _]. done. Qed.

Lemma avoids_bind {S A : Type} code (c : M S A) (k : A -> M S response) :
  (forall a, avoids code (k a)) -> avoids code (bind c k).
Proof.
  intros Hk s r s'. unfold bind.
  destruct (c s) as [[a|e] s1]; [apply Hk | discriminate].
Qed.

Lemma try_except_status {S : Type} code (c : M S response) s :
  avoids code c -> code <> 500 -> status (fst (try_except c s)) <> code.
Proof.
  intros Hc Hcode. unfold try_except.
  destruct (c s) as [[r|e] s'] eqn:E; simpl; [by eapply Hc | done].
Qed.

Lemma preserves_ret {S A : Type} (P : S -> Prop) (a : A) : preserves P (ret a).
Proof. by intros s. Qed.

Lemma preserves_raise {S A : Type} (P : S -> Prop) e :
  preserves (A := A) P (raise e).
Proof. by intros s. Qed.

Lemma preserves_lift {S A : Type} (P : S -> Prop) (r : result A) :
  preserves P (lift r).
Proof. by intros s. Qed.

Lemma preserves_get {S : Type} (P : S -> Prop) : preserves P get_state.
Proof. by intros s. Qed.

Lemma preserves_bind {S A B : Type} (P : S -> Prop) (c : M S A)
    (k : A -> M S B) :
  preserves P c -> (forall a, preserves P (k a)) -> preserves P (bind c k).
Proof.
  intros Hc Hk s Hs. unfold bind. specialize (Hc s Hs).
  destruct (c s) as [[a|e] s1]; simpl in *; [by apply Hk | done].
Qed.

Lemma preserves_try {S : Type} (P : S -> Prop) (c : M S response) s :
  preserves P c -> P s -> P (snd (try_except c s)).
Proof.
  intros Hc Hs. specialize (Hc s Hs). unfold try_except.
  by destruct (c s) as [[r|e] s1].
Qed.

(** Facts [preserves P c] about the primitive state changes. *)
Create HintDb primitives.

(** Splits a computation along its binds and branches, down to the
    primitive state changes, which are closed from the hint database. *)
Ltac step_preserves :=
  repeat first
    [ solve [auto with primitives nocore]
    | apply preserves_ret | apply preserves_raise | apply preserves_lift
    | apply preserves_get
    | apply preserves_bind; [| intros ?]
    | match goal with
      | |- preserves _ (if ?b then _ else _) => destruct b
      | |- preserves _ (match ?x with _ => _ end) => destruct x
      end ].

Lemma post_ret {S A : Type} (a : A) (Q : A -> Prop) :
  Q a -> post (S := S) (ret a) Q.
Proof. intros H s a' s' [= <- _]. done. Qed.

Lemma post_any {S A : Type} (c : M S A) : post c (fun _ => True).
Proof. by intros s a s' _. Qed.

Lemma post_bind {S A B : Type} (c : M S A) (k : A -> M S B)
    (Q1 : A -> Prop) (Q2 : B -> Prop) :
  post c Q1 -> (forall a, Q1 a -> post (k a) Q2) -> post (bind c k) Q2.
Proof.
  intros Hc Hk s b s'. unfold bind.
  destruct (c s) as [[a|e] s1] eqn:E; [|discriminate].
  intros H. eapply Hk; [by eapply Hc | exact H].
Qed.

Lemma bind_ext {S A B : Type} (c : M S A) (k1 k2 : A -> M S B) s :
  (forall a s', k1 a s' = k2 a s') -> bind c k1 s = bind c k2 s.
Proof. intros H. unfold bind. destruct (c s) as [[a|e] s']; [apply H | done]. Qed.

(** ** Request bodies that are JSON objects *)

Lemma missing_obj k kvs :
  missing k (JObj kvs) = Ok (bool_decide (assoc k kvs = None)).
Proof.
  unfold missing. destruct kvs as [|kv kvs]; [done|].
  cbn [truthy py_contains]. f_equal.
  destruct (assoc k (kv :: kvs)) as [v|].
  - rewrite bool_decide_true by eauto. by rewrite bool_decide_false.
  - rewrite bool_decide_false by (intros [? ?]; done).
    by rewrite bool_decide_true.
Qed.

Ltac step_avoids :=
  repeat first
    [ apply avoids_ret; simpl; lia
    | apply avoids_bind; intros ?
    | match goal with
      | |- avoids _ (if ?b then _ else _) => destruct b
      | |- avoids _ (match ?x with _ => _ end) => destruct x
      end ].

End MonadProps.

(** * Properties of the embedding and search service *)

Module EmbedProps.

Import Embed MonadProps.
Local Open Scope py_scope.

Lemma preserves_modify P (f : state -> state) :
  (forall s, P s -> P (f s)) -> preserves P (modify f).
Proof. intros Hf s Hs. by apply Hf. Qed.

(** ** The lazily created index *)

Lemma get_faiss_index_loaded s :
  get_faiss_index s = (Ok (current_index s), loaded s) /\
  faiss_index (loaded s) = Some (current_index s).
Proof.
  unfold current_index, loaded, get_faiss_index, bind, get_state, modify, ret.
  destruct s as [mo fi md dk tr]; simpl.
  destruct fi as [ix|]; simpl; [done|].
  destruct (index_file dk) as [ix|]; simpl; [|done].
  by destruct (metadata_file dk).
Qed.

Lemma loaded_fields s :
  model (loaded s) = model s /\ disk (loaded s) = disk s /\
  trace (loaded s) = trace s.
Proof.
  unfold loaded, get_faiss_index, bind, get_state, modify, ret.
  destruct s as [mo fi md dk tr]; simpl.
  destruct fi as [ix|]; simpl; [done|].
  destruct (index_file dk) as [ix|]; simpl; [|done].
  by destruct (metadata_file dk).
Qed.

Lemma loaded_idem s : loaded (loaded s) = loaded s.
Proof.
  destruct (get_faiss_index_loaded s) as [_ H].
  unfold loaded at 1. unfold get_faiss_index, bind, get_state. simpl.
  by rewrite H.
Qed.

Lemma read_ntotal_loaded s :
  read_ntotal (loaded s) = (Ok (ntotal (current_index s)), loaded s).
Proof.
  destruct (get_faiss_index_loaded s) as [_ H].
  unfold read_ntotal, bind, get_state. simpl. by rewrite H.
Qed.

Lemma get_model_run s :
  get_model s =
  (Ok tt, if model s then s else set_model true (log LoadModel s)).
Proof.
  unfold get_model, bind, get_state, modify, ret. simpl.
  by destruct (model s).
Qed.

(** ** POST /index: empty list and missing key *)

Lemma index_falsy_list_noop s kvs v :
  assoc "embeddings" kvs = Some v -> truthy v = false ->
  index_embeddings (JObj kvs) s =
  (jsonify [("message", JStr "No embeddings to index")], s).
Proof.
  intros Hk Hv. unfold index_embeddings, try_except, index_embeddings_body.
  rewrite (bind_lift_ok _ _ _ false)
    by (rewrite missing_obj, Hk; by rewrite bool_decide_false).
  cbn [py_get py_getitem]. rewrite Hk. cbn. by rewrite Hv.
Qed.

Lemma index_status_400 s kvs :
  status (fst (index_embeddings (JObj kvs) s)) = 400 <->
  assoc "embeddings" kvs = None.
Proof.
  split.
  - intros H. destruct (assoc "embeddings" kvs) as [v|] eqn:Hk; [|done].
    exfalso. revert H. unfold index_embeddings.
    apply try_except_status; [|done].
    intros s0 r s1. unfold index_embeddings_body.
    rewrite (bind_lift_ok _ _ _ false)
      by (rewrite missing_obj, Hk; by rewrite bool_decide_false).
    revert s0 r s1.
    match goal with |- forall s0 r s1, ?c s0 = _ -> _ => change (avoids 400 c) end.
    step_avoids.
  - intros Hk. unfold index_embeddings, try_except, index_embeddings_body.
    rewrite (bind_lift_ok _ _ _ true)
      by (rewrite missing_obj, Hk; by rewrite bool_decide_true).
    done.
Qed.

(** C7 (as amended): an /index request whose [embeddings] list is empty
    changes nothing (index, metadata, files, trace) and is answered with
    HTTP 200 and the body [{"message": "No embeddings to index"}], which has
    no [total_vectors] field; and for a JSON-object body the answer is
    HTTP 400 exactly when the [embeddings] key is absent. *)
Theorem index_empty_list_noop_and_400 :
  (forall s kvs,
      assoc "embeddings" kvs = Some (JArr []) ->
      index_embeddings (JObj kvs) s =
      (mkResponse 200 (JObj [("message", JStr "No embeddings to index")]), s)) /\
  (forall s kvs,
      status (fst (index_embeddings (JObj kvs) s)) = 400 <->
      assoc "embeddings" kvs = None).
Proof.
  split.
  - intros s kvs Hk. by apply (index_falsy_list_noop s kvs (JArr [])).
  - apply index_status_400.
Qed.

Lemma index_empty_list_noop_and_400_witness :
  index_embeddings (JObj [("embeddings", JArr [])]) (boot no_files) =
  (mkResponse 200 (JObj [("message", JStr "No embeddings to index")]),
   boot no_files).
Proof.
  apply (proj1 index_empty_list_noop_and_400). reflexivity.
Defined.

(** C7 (as stated) fails: the answer to an empty list does not report the
    total vector count. *)
Lemma index_empty_list_reports_no_total :
  let r := fst (index_embeddings (JObj [("embeddings", JArr [])])
                                 (boot no_files)) in
  status r = 200 /\ py_contains "total_vectors" (body r) = Ok false.
Proof. by vm_compute. Qed.

(** ** POST /search on an empty index *)

Lemma current_index_after_get_model s :
  current_index (if model s then s else set_model true (log LoadModel s)) =
  current_index s.
Proof.
  destruct s as [mo fi md dk tr].
  unfold current_index, loaded, get_faiss_index, bind, get_state, modify, ret.
  simpl. destruct mo; simpl; [done|].
  destruct fi as [ix|]; simpl; [done|].
  destruct (index_file dk) as [ix|]; simpl; [|done].
  by destruct (metadata_file dk).
Qed.

Lemma search_on_empty_index encode s kvs q :
  assoc "query" kvs = Some q ->
  vectors (current_index s) = [] ->
  search encode (JObj kvs) s =
  (jsonify [("results", JArr [])],
   loaded (if model s then s else set_model true (log LoadModel s))).
Proof.
  intros Hq Hempty. unfold search, try_except, search_body.
  rewrite (bind_lift_ok _ _ _ false)
    by (rewrite missing_obj, Hq; by rewrite bool_decide_false).
  cbn [py_getitem py_get]. rewrite Hq. cbn [of_option].
  rewrite (bind_lift_ok _ _ _ q) by done.
  rewrite (bind_lift_ok _ _ _ (default JNull (assoc "video_id" kvs))) by done.
  rewrite (bind_lift_ok _ _ _ (default (JInt 10) (assoc "top_k" kvs))) by done.
  rewrite (bind_ok _ _ _ _ _ (get_model_run s)).
  rewrite (bind_ok _ _ _ _ _ (proj1 (get_faiss_index_loaded _))).
  rewrite (bind_ok _ _ _ _ _ (read_ntotal_loaded _)).
  rewrite current_index_after_get_model. unfold ntotal. rewrite Hempty.
  reflexivity.
Qed.

(** C6: a /search request with a query, made while the index holds no
    vector, is answered with [{"results": []}]; the handler may load the
    model object (once, if it was not loaded) but never calls its [encode]:
    the trace grows by at most a [LoadModel] event. *)
Theorem search_empty_index_skips_model encode s kvs q :
  assoc "query" kvs = Some q ->
  vectors (current_index s) = [] ->
  fst (search encode (JObj kvs) s) = mkResponse 200 (JObj [("results", JArr [])]) /\
  trace (snd (search encode (JObj kvs) s)) =
    trace s ++ (if model s then [] else [LoadModel]) /\
  (forall texts, Encode texts ∈ trace (snd (search encode (JObj kvs) s)) ->
                 Encode texts ∈ trace s).
Proof.
  intros Hq Hempty. rewrite (search_on_empty_index encode s kvs q Hq Hempty).
  cbn [fst snd]. split; [done|].
  destruct (loaded_fields (if model s then s
                           else set_model true (log LoadModel s)))
    as (_ & _ & ->).
  destruct (model s); simpl.
  - rewrite app_nil_r. done.
  - split; [done|]. intros texts Hin.
    apply elem_of_app in Hin as [Hin|Hin]; [done|].
    apply list_elem_of_singleton in Hin. discriminate.
Qed.

Lemma search_empty_index_skips_model_witness :
  fst (search toy_encode (JObj [("query", JStr "cats")]) (boot no_files)) =
    mkResponse 200 (JObj [("results", JArr [])]) /\
  trace (snd (search toy_encode (JObj [("query", JStr "cats")]) (boot no_files))) =
    [LoadModel].
Proof.
  destruct (search_empty_index_skips_model toy_encode (boot no_files)
              [("query", JStr "cats")] (JStr "cats") eq_refl eq_refl)
    as (H1 & H2 & _).
  split; [exact H1 | exact H2].
Defined.

(** ** POST /clear followed by POST /search *)

Ltac run_primitive :=
  intros [mo fi md dk tr];
  unfold get_model, get_faiss_index, read_ntotal, call_encode, index_search,
    save_faiss_index, bind, get_state, modify, ret, raise, lift, log,
    set_model, set_faiss_index, set_metadata, set_disk;
  simpl.

Lemma cleared_get_model : preserves cleared get_model.
Proof. run_primitive. by destruct mo. Qed.

Lemma cleared_get_faiss_index : preserves cleared get_faiss_index.
Proof.
  run_primitive. unfold cleared; simpl. intros [Hm Hd].
  destruct fi as [ix|]; simpl; [done|].
  destruct dk as [[ix|] [m|]]; simpl in *; done.
Qed.

Lemma cleared_read_ntotal : preserves cleared read_ntotal.
Proof. run_primitive. by destruct fi. Qed.

Lemma cleared_call_encode encode texts :
  preserves cleared (call_encode encode texts).
Proof. run_primitive. by destruct (encode texts). Qed.

Lemma cleared_index_search qs k : preserves cleared (index_search qs k).
Proof.
  run_primitive. intros H. by repeat (case_match; simpl).
Qed.

Lemma cleared_clear_index s : cleared (snd (clear_index s)).
Proof. destruct s as [mo fi md dk tr]. by vm_compute. Qed.

#[local] Hint Resolve cleared_get_model cleared_get_faiss_index
  cleared_read_ntotal cleared_call_encode cleared_index_search : primitives.

Lemma cleared_step encode o s :
  is_index o = false -> cleared s -> cleared (step encode o s).
Proof.
  intros Ho Hs. destruct o; try discriminate; cbn [step].
  - unfold health. pose proof (cleared_get_faiss_index s Hs) as H.
    by destruct (get_faiss_index s) as [[ix|e] s1].
  - unfold embed. apply preserves_try; [|done]. unfold embed_body.
    step_preserves.
  - unfold search. apply preserves_try; [|done]. unfold search_body.
    step_preserves.
  - apply cleared_clear_index.
  - destruct Hs as [_ Hd]. by split.
Qed.

Lemma cleared_run encode ops s :
  Forall (fun o => is_index o = false) ops ->
  cleared s -> cleared (run encode ops s).
Proof.
  intros Hops. revert s. induction Hops as [|o ops Ho _ IH]; intros s Hs.
  - done.
  - simpl. apply IH. by apply cleared_step.
Qed.

Lemma cleared_current_index s : cleared s -> vectors (current_index s) = [].
Proof.
  destruct s as [mo fi md dk tr]. unfold cleared. simpl. intros [Hm Hd].
  unfold current_index, loaded, get_faiss_index, bind, get_state, modify, ret.
  simpl. destruct fi as [ix|]; simpl; [done|].
  destruct (index_file dk) as [ix|]; simpl; [|done].
  by destruct (metadata_file dk).
Qed.

(** C9: after /clear, and after any further requests and restarts among
    which there is no /index request, every /search request that carries a
    query (whatever the query, the video_id and the top_k) is answered with
    [{"results": []}]. *)
Theorem clear_then_search_empty encode s ops kvs q :
  Forall (fun o => is_index o = false) ops ->
  assoc "query" kvs = Some q ->
  fst (search encode (JObj kvs) (run encode ops (snd (clear_index s)))) =
  mkResponse 200 (JObj [("results", JArr [])]).
Proof.
  intros Hops Hq.
  rewrite (search_on_empty_index encode _ kvs q Hq); [done|].
  apply cleared_current_index, cleared_run; [done|].
  apply cleared_clear_index.
Qed.

Lemma clear_then_search_empty_witness :
  fst (search toy_encode
         (JObj [("query", JStr "cats"); ("video_id", JInt 7); ("top_k", JInt 3)])
         (run toy_encode [Health; Restart]
            (snd (clear_index
                    (snd (index_embeddings
                            (JObj [("embeddings", JArr [record 1 5])])
                            (boot no_files))))))) =
  mkResponse 200 (JObj [("results", JArr [])]).
Proof.
  apply (clear_then_search_empty toy_encode _ [Health; Restart] _ (JStr "cats")).
  - repeat constructor.
  - reflexivity.
Defined.

(** ** POST /search with a falsy video_id *)


Lemma assoc_dict_remove_ne {A : Type} k k' (kvs : list (string * A)) :
  k <> k' -> assoc k (dict_remove k' kvs) = assoc k kvs.
Proof.
  intros Hne. induction kvs as [|[k0 v] kvs IH]; [done|]. simpl.
  destruct (String.eqb_spec k' k0) as [->|Hk0].
  - rewrite IH. by rewrite (proj2 (String.eqb_neq k k0)).
  - simpl. by rewrite IH.
Qed.

Lemma assoc_dict_remove_eq {A : Type} k (kvs : list (string * A)) :
  assoc k (dict_remove k kvs) = None.
Proof.
  induction kvs as [|[k0 v] kvs IH]; [done|]. simpl.
  destruct (String.eqb_spec k k0) as [->|Hk0]; [done|].
  simpl. by rewrite (proj2 (String.eqb_neq k k0)).
Qed.

Lemma search_k_falsy k vid total :
  truthy vid = false -> search_k k vid total = Z.min k total.
Proof. intros H. unfold search_k. by rewrite H. Qed.

Lemma collect_falsy vid k md hits acc :
  truthy vid = false ->
  collect vid k md hits acc = collect JNull k md hits acc.
Proof.
  intros H. revert acc. induction hits as [|[dist idx] hits IH]; intros acc.
  - done.
  - simpl. rewrite H. simpl. rewrite !IH.
    destruct (idx =? -1); [done|].
    destruct (md !! py_str idx); [|done].
    by destruct (_ >=? k).
Qed.

(** C10: a /search request whose [video_id] is present but falsy ([0], the
    empty string, [null], [false], an empty list or object) is handled
    exactly as the same request without the [video_id] key: same response
    and same final state, trace included, so the search breadth is
    [min(top_k, ntotal)] and the loop skips no hit on account of its video. *)
Theorem search_falsy_video_id encode s kvs v :
  assoc "video_id" kvs = Some v ->
  truthy v = false ->
  search encode (JObj kvs) s =
    search encode (JObj (dict_remove "video_id" kvs)) s /\
  (forall k total, search_k k v total = Z.min k total) /\
  (forall k md hits acc,
      collect v k md hits acc = collect JNull k md hits acc).
Proof.
  intros Hv Hfalsy. split; [|split].
  - unfold search, try_except, search_body.
    rewrite !missing_obj.
    rewrite (assoc_dict_remove_ne "query" "video_id") by done.
    destruct (assoc "query" kvs) as [q|] eqn:Hq.
    + rewrite !bool_decide_false by done.
      cbn [py_getitem py_get lift bind of_option].
      rewrite (assoc_dict_remove_ne "query" "video_id") by done.
      rewrite (assoc_dict_remove_ne "top_k" "video_id") by done.
      rewrite assoc_dict_remove_eq, Hq, Hv. cbn [of_option default].
      match goal with
      | |- match ?a with _ => _ end = match ?b with _ => _ end =>
          replace a with b; [done|]
      end.
      apply bind_ext; intros _ s1. apply bind_ext; intros _ s2.
      apply bind_ext; intros total s3. destruct (total =? 0); [done|].
      apply bind_ext; intros qv s4. apply bind_ext; intros k s5.
      unfold id.
      rewrite (search_k_falsy k v total Hfalsy).
      rewrite (search_k_falsy k JNull total eq_refl).
      apply bind_ext; intros hits s6. apply bind_ext; intros s7 s8.
      unfold ret. by rewrite (collect_falsy v k _ hits [] Hfalsy).
    + rewrite !bool_decide_true by done. done.
  - intros k total. by apply search_k_falsy.
  - intros k md hits acc. by apply collect_falsy.
Qed.

Lemma search_falsy_video_id_witness :
  search toy_encode
    (JObj [("query", JStr "cats"); ("video_id", JInt 0); ("top_k", JInt 1)])
    (snd (index_embeddings
            (JObj [("video_id", JInt 7);
                   ("embeddings", JArr [record 1 1; record 2 2])])
            (boot no_files))) =
  search toy_encode
    (JObj [("query", JStr "cats"); ("top_k", JInt 1)])
    (snd (index_embeddings
            (JObj [("video_id", JInt 7);
                   ("embeddings", JArr [record 1 1; record 2 2])])
            (boot no_files))).
Proof.
  apply (proj1 (search_falsy_video_id toy_encode _
                  [("query", JStr "cats"); ("video_id", JInt 0);
                   ("top_k", JInt 1)] (JInt 0) eq_refl eq_refl)).
Defined.

(** ** POST /search on a non-empty index *)

Lemma collect_take vid k md hits acc :
  Z.of_nat (length acc) < k ->
  collect vid k md hits acc =
  acc ++ take (Z.to_nat k - length acc) (omap (survivor vid md) hits).
Proof.
  revert acc. induction hits as [|[dist idx] hits IH]; intros acc Hacc.
  - cbn [collect omap list_omap]. by rewrite take_nil, app_nil_r.
  - cbn [collect omap list_omap].
    pose proof (eq_refl (survivor vid md (dist, idx))) as Hs.
    unfold survivor at 2 in Hs. cbn [fst snd] in Hs. rewrite Hs. clear Hs.
    destruct (idx =? -1); [by apply IH|].
    destruct (md !! py_str idx) as [meta|]; [|by apply IH].
    destruct (truthy vid && negb (py_eq (video_id meta) vid));
      [by apply IH|].
    rewrite length_app. cbn [length].
    destruct (Z.to_nat k - length acc)%nat as [|n] eqn:Hn; [lia|].
    cbn [take]. destruct (Z.geb_spec (Z.of_nat (length acc + 1)) k) as [Hge|Hlt].
    + assert (n = 0%nat) as -> by lia. by rewrite take_0.
    + rewrite IH by (rewrite length_app; simpl; lia).
      rewrite length_app. cbn [length].
      replace (Z.to_nat k - (length acc + 1))%nat with n by lia.
      by rewrite <- app_assoc.
Qed.

Lemma loaded_after_get_model s :
  let s1 := loaded (if model s then s else set_model true (log LoadModel s)) in
  faiss_index s1 = Some (current_index s) /\
  metadata s1 = metadata (loaded s) /\
  disk s1 = disk s /\
  trace s1 = trace s ++ (if model s then [] else [LoadModel]).
Proof.
  destruct s as [mo fi md dk tr].
  unfold current_index, loaded, get_faiss_index, bind, get_state, modify, ret.
  simpl. destruct mo; simpl; rewrite ?app_nil_r;
    (destruct fi as [ix|]; simpl; [done|]);
    (destruct dk as [[ix|] [m|]]; simpl; done).
Qed.

Lemma results_of_jsonify l : results_of (jsonify [("results", JArr l)]) = l.
Proof. reflexivity. Qed.

(** The answer and the final state of a /search request that reaches the
    index search. *)
Lemma search_run encode s kvs q k qv :
  assoc "query" kvs = Some q ->
  default (JInt 10) (assoc "top_k" kvs) = JInt k ->
  0 < k ->
  vectors (current_index s) <> [] ->
  encode [q] = Some [qv] ->
  length qv = d (current_index s) ->
  let vid := default JNull (assoc "video_id" kvs) in
  let ix := current_index s in
  let s1 := loaded (if model s then s else set_model true (log LoadModel s)) in
  let breadth := search_k k vid (ntotal ix) in
  search encode (JObj kvs) s =
  (jsonify [("results",
             JArr (collect vid k (metadata (loaded s))
                     (faiss_search ix qv (Z.to_nat breadth)) []))],
   log (Search breadth) (log (Encode [q]) s1)).
Proof.
  intros Hq Hk Hpos Hne Henc Hdim vid ix s1 breadth.
  unfold search, try_except, search_body.
  rewrite (bind_lift_ok _ _ _ false)
    by (rewrite missing_obj, Hq; by rewrite bool_decide_false).
  cbn [py_getitem py_get]. rewrite Hq, Hk. cbn [of_option].
  rewrite (bind_lift_ok _ _ _ q) by done.
  rewrite (bind_lift_ok _ _ _ vid) by done.
  rewrite (bind_lift_ok _ _ _ (JInt k)) by done.
  rewrite (bind_ok _ _ _ _ _ (get_model_run s)).
  rewrite (bind_ok _ _ _ _ _ (proj1 (get_faiss_index_loaded _))).
  rewrite (bind_ok _ _ _ _ _ (read_ntotal_loaded _)).
  rewrite current_index_after_get_model. fold s1 ix.
  assert (0 < ntotal ix) as Htotal.
  { unfold ntotal, ix. destruct (vectors (current_index s)); [done|simpl; lia]. }
  destruct (Z.eqb_spec (ntotal ix) 0) as [H0|_]; [lia|].
  destruct (loaded_after_get_model s) as (Hix & Hmd & _ & _). fold s1 in Hix, Hmd.
  assert (0 < breadth) as Hbreadth.
  { unfold breadth, search_k. destruct (truthy vid); lia. }
  unfold call_encode, index_search, bind, modify, lift, get_state, ret.
  rewrite Henc. cbn [of_option py_int]. cbn [faiss_index log].
  rewrite Hix. cbn [forallb]. fold ix in Hdim. rewrite Hdim, Nat.eqb_refl.
  cbn [andb negb]. fold breadth.
  destruct (Z.ltb_spec 0 breadth) as [_|?]; [|lia].
  cbn [negb metadata log]. by rewrite Hmd.
Qed.

(** C4: for a /search request with a positive integer [top_k] that reaches
    the index search, the breadth handed to the index is
    [min(top_k * 10, ntotal)] when the [video_id] filter is in force and
    [min(top_k, ntotal)] otherwise; the answer lists the hits that survive
    the filter, in search order, cut off after [top_k]: at most [top_k]
    results, and fewer when fewer survive. *)
Theorem search_breadth_and_truncation encode s kvs q k qv :
  assoc "query" kvs = Some q ->
  default (JInt 10) (assoc "top_k" kvs) = JInt k ->
  0 < k ->
  vectors (current_index s) <> [] ->
  encode [q] = Some [qv] ->
  length qv = d (current_index s) ->
  let vid := default JNull (assoc "video_id" kvs) in
  let total := ntotal (current_index s) in
  let breadth :=
    if truthy vid then Z.min (k * 10) total else Z.min k total in
  let survivors :=
    omap (survivor vid (metadata (loaded s)))
         (faiss_search (current_index s) qv (Z.to_nat breadth)) in
  trace (snd (search encode (JObj kvs) s)) =
    trace s ++ (if model s then [] else [LoadModel]) ++
    [Encode [q]; Search breadth] /\
  status (fst (search encode (JObj kvs) s)) = 200 /\
  results_of (fst (search encode (JObj kvs) s)) =
    take (Z.to_nat k) survivors /\
  Z.of_nat (length (results_of (fst (search encode (JObj kvs) s)))) <= k /\
  length (results_of (fst (search encode (JObj kvs) s))) =
    Nat.min (Z.to_nat k) (length survivors).
Proof.
  intros Hq Hk Hpos Hne Henc Hdim vid total breadth survivors.
  rewrite (search_run encode s kvs q k qv Hq Hk Hpos Hne Henc Hdim).
  cbn [fst snd trace log]. fold vid.
  destruct (loaded_after_get_model s) as (_ & _ & _ & ->).
  split; [by rewrite <- !app_assoc|]. split; [done|].
  rewrite results_of_jsonify, collect_take by (simpl; lia).
  cbn [length app]. rewrite Nat.sub_0_r.
  change (search_k k vid (ntotal (current_index s))) with breadth.
  fold survivors. split; [done|].
  rewrite length_take. split; lia.
Qed.

Lemma search_breadth_and_truncation_witness :
  trace (snd (search toy_encode
                (JObj [("query", JStr "cats"); ("video_id", JInt 7);
                       ("top_k", JInt 1)]) two_videos)) =
    [LoadModel; Encode [JStr "cats"]; Search 10] /\
  results_of (fst (search toy_encode
                     (JObj [("query", JStr "cats"); ("video_id", JInt 7);
                            ("top_k", JInt 1)]) two_videos)) = [].
Proof.
  destruct (search_breadth_and_truncation toy_encode two_videos
              [("query", JStr "cats"); ("video_id", JInt 7); ("top_k", JInt 1)]
              (JStr "cats") 1 (repeat 0%Q embedding_dim))
    as (Ht & _ & Hr & _);
    [reflexivity | reflexivity | lia | by vm_compute | reflexivity
    | reflexivity |].
  split; [rewrite Ht | rewrite Hr]; by vm_compute.
Defined.

(** ** The similarity score *)


Lemma Qsquare_nonneg c : (0 <= c * c)%Q.
Proof. destruct c as [n dn]. unfold Qle. simpl. nia. Qed.

Lemma sq_l2_nonneg x y : (0 <= sq_l2 x y)%Q.
Proof.
  revert y. induction x as [|a x IH]; intros [|b y]; simpl; try lra.
  specialize (IH y). pose proof (Qsquare_nonneg (a - b)). lra.
Qed.

Lemma Forall_imap_intro {A B : Type} (P : B -> Prop) (f : nat -> A -> B) l :
  (forall i a, P (f i a)) -> Forall P (imap f l).
Proof.
  revert f. induction l as [|a l IH]; intros f Hf; simpl; constructor.
  - apply Hf.
  - apply IH. intros i a'. apply Hf.
Qed.

Lemma insert_hit_Forall (P : Q * Z -> Prop) h hs :
  P h -> Forall P hs -> Forall P (insert_hit h hs).
Proof.
  intros Hh. induction 1 as [|h' hs Hh' Hhs IH]; simpl.
  - by constructor.
  - destruct (Qle_bool _ _); repeat constructor; done.
Qed.

Lemma faiss_search_nonneg ix x k :
  Forall (fun h => (0 <= fst h)%Q) (faiss_search ix x k).
Proof.
  unfold faiss_search. apply Forall_app. split.
  - apply Forall_take.
    assert (Forall (fun h : Q * Z => (0 <= fst h)%Q)
              (imap (fun i v => (sq_l2 x v, Z.of_nat i)) (vectors ix))) as H
      by (apply Forall_imap_intro; intros; apply sq_l2_nonneg).
    induction H; simpl; [constructor | by apply insert_hit_Forall].
  - apply Forall_replicate. simpl. lra.
Qed.






Lemma similarity_antitone d1 d2 :
  (0 <= d1 -> d1 <= d2 -> similarity d2 <= similarity d1)%Q.
Proof.
  intros H1 H12. unfold similarity.
  apply Qle_shift_div_r; [lra|].
  assert (1 / (1 + d1) * (1 + d2) == (1 + d2) / (1 + d1))%Q as ->
    by (field; lra).
  apply Qle_shift_div_l; lra.
Qed.

Lemma reported_similarity_zero dist :
  (dist == 0)%Q -> reported_similarity dist = 1%Q.
Proof.
  intros H. unfold reported_similarity.
  rewrite (RoundingProps.py_round_comp (similarity dist) 1 4).
  - by vm_compute.
  - unfold similarity. rewrite H. reflexivity.
Qed.




(** ** POST /index: a batch of records *)

Lemma result_mapM_Forall2 {A B : Type} (f : A -> result B) l bs :
  result_mapM f l = Ok bs <-> Forall2 (fun a b => f a = Ok b) l bs.
Proof.
  revert bs. induction l as [|a l IH]; intros bs; simpl.
  - split; [intros [= <-]; constructor | by inversion 1].
  - destruct (f a) as [b|e] eqn:Ha.
    + destruct (result_mapM f l) as [bs'|e] eqn:Hl.
      * split.
        -- intros [= <-]. constructor; [done | by apply IH].
        -- inversion 1 as [|? b' ? bs'' Hb Hbs]; subst.
           apply IH in Hbs. congruence.
      * split; [done|]. inversion 1 as [|? b' ? bs'' Hb Hbs]; subst.
        apply IH in Hbs. done.
    + split; [done|]. inversion 1; congruence.
Qed.

Lemma result_mapM_total {A B : Type} (f : A -> result B) l :
  Forall (fun a => exists b, f a = Ok b) l ->
  exists bs, result_mapM f l = Ok bs.
Proof.
  induction 1 as [|a l [b Hb] _ [bs IH]]; simpl; [by eexists|].
  rewrite Hb, IH. by eexists.
Qed.

Lemma update_metadata_run vid start_idx i items ids s :
  Forall2 (fun e id => py_getitem e "id" = Ok id) items ids ->
  update_metadata vid start_idx i items s =
  (Ok tt, set_metadata (record_entries vid start_idx i ids (metadata s)) s).
Proof.
  intros H. revert i s. induction H as [|e id items ids He _ IH]; intros i s.
  - by destruct s.
  - cbn [update_metadata record_entries].
    rewrite (bind_lift_ok _ _ _ id) by done.
    unfold bind at 1, modify at 1. rewrite IH. by destruct s.
Qed.

(** Position keys are distinct for distinct positions. *)
Lemma py_str_inj i j : py_str i = py_str j -> i = j.
Proof. apply (inj (pretty : Z -> string)). Qed.

Lemma lookup_record_entries_other vid start_idx i ids m key :
  (forall j, (j < length ids)%nat -> key <> py_str (start_idx + i + Z.of_nat j)) ->
  record_entries vid start_idx i ids m !! key = m !! key.
Proof.
  revert i m. induction ids as [|id ids IH]; intros i m Hkey; [done|].
  cbn [record_entries]. rewrite IH.
  - apply lookup_insert_ne. intros Heq. apply (Hkey 0%nat); [simpl; lia|].
    rewrite <- Heq. f_equal. lia.
  - intros j Hj. replace (start_idx + (i + 1) + Z.of_nat j)
      with (start_idx + i + Z.of_nat (S j)) by lia.
    apply Hkey. simpl. lia.
Qed.

Lemma lookup_record_entries vid start_idx i ids m j id :
  ids !! j = Some id ->
  record_entries vid start_idx i ids m !! py_str (start_idx + i + Z.of_nat j) =
  Some (mkMeta id vid).
Proof.
  revert i m j. induction ids as [|id0 ids IH]; intros i m j Hj; [done|].
  cbn [record_entries]. destruct j as [|j]; simpl in Hj.
  - injection Hj as ->. rewrite lookup_record_entries_other.
    + replace (start_idx + i + Z.of_nat 0) with (start_idx + i) by lia.
      apply lookup_insert_eq.
    + intros j _ Heq. apply py_str_inj in Heq. lia.
  - replace (start_idx + i + Z.of_nat (S j))
      with (start_idx + (i + 1) + Z.of_nat j) by lia.
    by apply IH.
Qed.

Lemma dom_record_entries vid start_idx i ids m :
  dom (record_entries vid start_idx i ids m) =
  dom m ∪ list_to_set (map (fun j => py_str (start_idx + i + Z.of_nat j))
                           (seq 0 (length ids))).
Proof.
  revert i m. induction ids as [|id ids IH]; intros i m.
  - simpl. set_solver.
  - cbn [record_entries length]. rewrite IH, dom_insert_L.
    cbn [seq map list_to_set]. rewrite <- seq_shift, map_map.
    replace (start_idx + i + Z.of_nat 0) with (start_idx + i) by lia.
    assert (map (fun j => py_str (start_idx + (i + 1) + Z.of_nat j))
                (seq 0 (length ids)) =
            map (fun j => py_str (start_idx + i + Z.of_nat (S j)))
                (seq 0 (length ids))) as ->.
    { apply map_ext. intros j. f_equal. lia. }
    set_solver.
Qed.

Lemma faiss_add_run vs s ix :
  faiss_index s = Some ix ->
  forallb (fun v => Nat.eqb (length v) (d ix)) vs = true ->
  faiss_add vs s =
  (Ok tt, set_faiss_index (Some (mkIndex (d ix) (vectors ix ++ vs))) s).
Proof.
  intros Hix Hdim. unfold faiss_add, bind, get_state. rewrite Hix, Hdim. done.
Qed.

Lemma faiss_add_raise vs s ix :
  faiss_index s = Some ix ->
  forallb (fun v => Nat.eqb (length v) (d ix)) vs = false ->
  faiss_add vs s = (Raise AssertionError, s).
Proof.
  intros Hix Hdim. unfold faiss_add, bind, get_state. rewrite Hix, Hdim. done.
Qed.

(** The answer and the final state of an /index request whose records all
    convert and carry an id. *)
Lemma index_run data s vid recs items ids rows vs :
  missing "embeddings" data = Ok false ->
  py_get data "video_id" JNull = Ok vid ->
  py_getitem data "embeddings" = Ok recs ->
  truthy recs = true ->
  py_iter recs = Ok items ->
  result_mapM (fun e => py_getitem e "embedding") items = Ok rows ->
  np_array rows = Ok vs ->
  forallb (fun v => Nat.eqb (length v) (d (current_index s))) vs = true ->
  Forall2 (fun e id => py_getitem e "id" = Ok id) items ids ->
  index_embeddings data s =
  (jsonify
     [("message",
       JStr ("Indexed " +:+ py_str (Z.of_nat (length items)) +:+ " vectors"));
      ("total_vectors",
       JInt (ntotal (current_index s) + Z.of_nat (length vs)))],
   indexed vid ids vs s).
Proof.
  intros Hmiss Hvid Hrecs Htruthy Hitems Hrows Hvs Hdim Hids.
  destruct (get_faiss_index_loaded s) as [Hget Hix].
  unfold index_embeddings, try_except, index_embeddings_body.
  rewrite (bind_lift_ok _ _ _ false) by done. cbv beta iota.
  rewrite (bind_lift_ok _ _ _ vid) by done.
  rewrite (bind_lift_ok _ _ _ recs) by done.
  rewrite Htruthy. cbn [negb].
  rewrite (bind_ok _ _ _ _ _ Hget).
  rewrite (bind_lift_ok _ _ _ items) by done.
  rewrite (bind_lift_ok _ _ _ rows) by done.
  rewrite (bind_lift_ok _ _ _ vs) by done.
  rewrite (bind_ok _ _ _ _ _ (read_ntotal_loaded s)).
  rewrite (bind_ok _ _ _ _ _ (faiss_add_run vs _ _ Hix Hdim)).
  rewrite (bind_ok _ _ _ _ _ (update_metadata_run vid _ 0 items ids _ Hids)).
  destruct (loaded_fields s) as (Hmo & Hdk & Htr).
  unfold indexed. rewrite <- Hmo, <- Htr.
  destruct (loaded s) as [mo fi md dk tr]. simpl in Hix. subst fi.
  unfold save_faiss_index, read_ntotal, bind, get_state, modify, ret.
  cbn. unfold ntotal. cbn. by rewrite length_app, Nat2Z.inj_add.
Qed.

Lemma records_convert n recs :
  Forall (fun rec => exists id v, record_of n rec id v) recs ->
  exists ids rows vs,
    Forall2 (fun e id => py_getitem e "id" = Ok id) recs ids /\
    Forall2 (fun e row => py_getitem e "embedding" = Ok row) recs rows /\
    Forall2 (fun row v => np_row row = Ok v) rows vs.
Proof.
  induction 1 as [|rec recs (id & v & Hid & row & Hrow & Hv & _) _
                    (ids & rows & vs & Hids & Hrows & Hvs)].
  - exists [], [], []. repeat split; constructor.
  - exists (id :: ids), (row :: rows), (v :: vs).
    repeat split; by constructor.
Qed.

(** C1: an /index request with a non-empty list of [n] records, each with
    an id and an embedding of the index's dimension, appends the [n]
    vectors in input order: the vector of record [i] lands at position
    [ntotal + i], where [ntotal] is the count before the request, the
    metadata entry keyed by that position holds the record's id as
    [transcript_id] and the batch's [video_id] ([null] when not supplied),
    earlier vectors and other metadata entries are untouched, and the
    answer reports [total_vectors = ntotal + n]. *)
Theorem index_appends_in_order s kvs recs :
  assoc "embeddings" kvs = Some (JArr recs) ->
  recs <> [] ->
  Forall (fun rec => exists id v, record_of (d (current_index s)) rec id v)
         recs ->
  let ix := current_index s in
  let vid := default JNull (assoc "video_id" kvs) in
  let r := fst (index_embeddings (JObj kvs) s) in
  let s' := snd (index_embeddings (JObj kvs) s) in
  (exists vs, faiss_index s' = Some (mkIndex (d ix) (vectors ix ++ vs)) /\
              length vs = length recs) /\
  (forall i rec, recs !! i = Some rec ->
     exists id v,
       record_of (d ix) rec id v /\
       (faiss_index s' ≫= fun ix' => vectors ix' !! (length (vectors ix) + i)%nat)
         = Some v /\
       metadata s' !! py_str (ntotal ix + Z.of_nat i) = Some (mkMeta id vid)) /\
  (forall key,
     (forall i, (i < length recs)%nat -> key <> py_str (ntotal ix + Z.of_nat i)) ->
     metadata s' !! key = metadata (loaded s) !! key) /\
  status r = 200 /\
  py_getitem (body r) "total_vectors" =
    Ok (JInt (ntotal ix + Z.of_nat (length recs))).
Proof.
  intros Hk Hne Hrecs ix vid r s'.
  destruct (records_convert _ _ Hrecs) as (ids & rows & vs & Hids & Hrows & Hvs).
  assert (Hall : forall i rec, recs !! i = Some rec ->
            exists id v, record_of (d ix) rec id v /\
                         ids !! i = Some id /\ vs !! i = Some v).
  { intros i rec Hi.
    apply list.Forall_lookup with (i := i) (x := rec) in Hrecs; [|done].
    destruct Hrecs as (id & v & Hrec). exists id, v. split; [done|].
    destruct Hrec as (Hid & row & Hrow & Hv & _).
    destruct (Forall2_lookup_l _ _ _ _ _ Hids Hi) as (id' & Hi1 & Hid').
    destruct (Forall2_lookup_l _ _ _ _ _ Hrows Hi) as (row' & Hi2 & Hrow').
    destruct (Forall2_lookup_l _ _ _ _ _ Hvs Hi2) as (v' & Hi3 & Hv').
    split; congruence. }
  assert (length ids = length recs) as Hlen_ids
    by (symmetry; by eapply Forall2_length).
  assert (length vs = length recs) as Hlen_vs.
  { rewrite <- (Forall2_length _ _ _ Hvs). symmetry.
    by eapply Forall2_length. }
  assert (forallb (fun v => Nat.eqb (length v) (d ix)) vs = true) as Hdim.
  { apply forallb_forall. intros v Hv. apply list_elem_of_In in Hv.
    apply list_elem_of_lookup in Hv as [i Hi].
    destruct (lookup_lt_is_Some_2 recs i) as [rec Hrec];
      [rewrite <- Hlen_vs; by eapply lookup_lt_Some|].
    destruct (Hall i rec Hrec) as (id & v' & (_ & row & _ & _ & Hl) & _ & Hv').
    assert (Some v = Some v') as [= ->] by (rewrite <- Hi; exact Hv').
    rewrite Hl. apply Nat.eqb_refl. }
  assert (index_embeddings (JObj kvs) s =
          (jsonify
             [("message",
               JStr ("Indexed " +:+ py_str (Z.of_nat (length recs)) +:+ " vectors"));
              ("total_vectors", JInt (ntotal ix + Z.of_nat (length vs)))],
           indexed vid ids vs s)) as Hrun.
  { apply (index_run (JObj kvs) s vid (JArr recs) recs ids rows vs); try done.
    - rewrite missing_obj, Hk. by rewrite bool_decide_false.
    - cbn. by rewrite Hk.
    - by destruct recs.
    - by apply result_mapM_Forall2.
    - by apply result_mapM_Forall2. }
  subst r s'. rewrite Hrun. cbn [fst snd]. unfold indexed.
  cbn [faiss_index metadata]. fold ix.
  split; [by exists vs|]. split; [|split; [|split]].
  - intros i rec Hi. destruct (Hall i rec Hi) as (id & v & Hrec & Hid & Hv).
    exists id, v. split; [done|]. split.
    + cbn. rewrite lookup_app_r by lia.
      by replace (length (vectors ix) + i - length (vectors ix))%nat with i
        by lia.
    + replace (ntotal ix + Z.of_nat i) with (ntotal ix + 0 + Z.of_nat i) by lia.
      by apply lookup_record_entries.
  - intros key Hkey. apply lookup_record_entries_other.
    intros j Hj. replace (ntotal ix + 0 + Z.of_nat j)
      with (ntotal ix + Z.of_nat j) by lia.
    apply Hkey. lia.
  - done.
  - cbn. by rewrite Hlen_vs.
Qed.

Lemma index_appends_in_order_witness :
  py_getitem
    (body (fst (index_embeddings
                  (JObj [("video_id", JInt 7);
                         ("embeddings", JArr [record 1 1; record 2 2])])
                  (boot no_files))))
    "total_vectors" = Ok (JInt 2).
Proof.
  refine (proj2 (proj2 (proj2 (proj2
    (index_appends_in_order (boot no_files)
       [("video_id", JInt 7); ("embeddings", JArr [record 1 1; record 2 2])]
       [record 1 1; record 2 2] eq_refl _ _))))).
  - discriminate.
  - repeat constructor.
    + exists (JInt 1). eexists. split; [reflexivity|].
      eexists. repeat split; reflexivity.
    + exists (JInt 2). eexists. split; [reflexivity|].
      eexists. repeat split; reflexivity.
Defined.

(** ** POST /embed *)

Lemma embeddings_of_jsonify l :
  embeddings_of (jsonify [("embeddings", JArr l)]) = l.
Proof. reflexivity. Qed.





(** ** The metadata has one entry per vector *)

Lemma map_seq_shift {B : Type} (f : nat -> B) a k b :
  map f (seq (a + k) b) = map (fun j => f (a + j)%nat) (seq k b).
Proof.
  revert k. induction b as [|b IH]; intros k; simpl; [done|].
  f_equal. rewrite <- IH. f_equal. f_equal. lia.
Qed.

Lemma position_keys_app a b :
  position_keys (a + b) =
  position_keys a ∪
  list_to_set (map (fun j => py_str (Z.of_nat a + 0 + Z.of_nat j)) (seq 0 b)).
Proof.
  unfold position_keys. rewrite seq_app, map_app, list_to_set_app_L.
  f_equal. f_equal. change (0 + a)%nat with a.
  replace a with (a + 0)%nat at 1 by lia. rewrite map_seq_shift.
  apply map_ext. intros j. f_equal. lia.
Qed.

Lemma size_position_keys n : size (position_keys n) = n.
Proof.
  unfold position_keys. rewrite size_list_to_set.
  - by rewrite length_map, length_seq.
  - assert (Inj (=) (=) (fun i : nat => py_str (Z.of_nat i))) as Hinj.
    { intros i j H. apply py_str_inj in H. lia. }
    apply (NoDup_fmap_2 (fun i => py_str (Z.of_nat i))), NoDup_seq.
Qed.

Lemma inv_size s : inv s -> size (metadata s) = vector_count s.
Proof.
  intros [Hm _]. unfold vector_count.
  destruct (faiss_index s) as [ix|].
  - rewrite <- size_dom, Hm. apply size_position_keys.
  - rewrite Hm. apply map_size_empty.
Qed.

Lemma inv_loaded s : inv s -> inv (loaded s).
Proof.
  destruct s as [mo fi md [fix_ fmd] tr]. unfold inv, disk_ok. simpl.
  unfold loaded, get_faiss_index, bind, get_state, modify, ret. simpl.
  intros [Hm Hd]. destruct fi as [ix|]; simpl; [done|].
  destruct fix_ as [ix|]; simpl.
  - destruct Hd as (m & -> & Hc). simpl. eauto.
  - subst md. split; [|done]. unfold consistent. simpl.
    by rewrite dom_empty_L.
Qed.

Lemma store_loaded s s0 : store s = store s0 -> store (loaded s) = store (loaded s0).
Proof.
  destruct s as [mo fi md dk tr], s0 as [mo0 fi0 md0 dk0 tr0].
  unfold store. simpl. intros [= -> -> ->].
  unfold loaded, get_faiss_index, bind, get_state, modify, ret. simpl.
  destruct fi0 as [ix|]; simpl; [done|].
  destruct dk0 as [[ix|] [m|]]; simpl; done.
Qed.


Lemma store_kept_get_model s0 : preserves (store_kept s0) get_model.
Proof. run_primitive. by destruct mo. Qed.

Lemma store_kept_get_faiss_index s0 : preserves (store_kept s0) get_faiss_index.
Proof.
  intros s [H|H]; right; change (snd (get_faiss_index s)) with (loaded s).
  - by apply store_loaded.
  - rewrite <- (loaded_idem s0). by apply store_loaded.
Qed.

Lemma store_kept_read_ntotal s0 : preserves (store_kept s0) read_ntotal.
Proof. run_primitive. by destruct fi. Qed.

Lemma store_kept_call_encode s0 encode texts :
  preserves (store_kept s0) (call_encode encode texts).
Proof. run_primitive. by destruct (encode texts). Qed.

Lemma store_kept_index_search s0 qs k :
  preserves (store_kept s0) (index_search qs k).
Proof. run_primitive. intros H. by repeat (case_match; simpl). Qed.

#[local] Hint Resolve store_kept_get_model store_kept_get_faiss_index
  store_kept_read_ntotal store_kept_call_encode store_kept_index_search
  : primitives.

Lemma embed_store_kept encode data s :
  store_kept s (snd (embed encode data s)).
Proof.
  unfold embed. apply preserves_try; [|by left]. unfold embed_body.
  step_preserves.
Qed.

Lemma search_store_kept encode data s :
  store_kept s (snd (search encode data s)).
Proof.
  unfold search. apply preserves_try; [|by left]. unfold search_body.
  step_preserves.
Qed.

Lemma health_store_kept s : store_kept s (snd (health s)).
Proof.
  unfold health. destruct (get_faiss_index_loaded s) as [-> _]. by right.
Qed.

(** What an /index request whose records all carry an id does to the
    state: nothing, the lazy initialisation only, or the whole batch. *)
Lemma index_embeddings_cases data s :
  records_have_id data = true ->
  let s' := snd (index_embeddings data s) in
  s' = s \/ s' = loaded s \/
  exists vid ids vs, length ids = length vs /\ s' = indexed vid ids vs s.
Proof.
  intros Hids s'. subst s'. unfold records_have_id in Hids.
  destruct (get_faiss_index_loaded s) as [Hget Hix].
  destruct (missing "embeddings" data) as [[|]|e] eqn:Hmiss;
    [left | | left];
    try (unfold index_embeddings, try_except, index_embeddings_body;
         first [ by rewrite (bind_lift_ok _ _ _ true)
               | by rewrite (bind_lift_raise _ _ _ e) ]).
  destruct (py_get data "video_id" JNull) as [vid|e] eqn:Hvid;
    [|left; unfold index_embeddings, try_except, index_embeddings_body;
      rewrite (bind_lift_ok _ _ _ false) by done; cbv beta iota;
      by rewrite (bind_lift_raise _ _ _ e)].
  destruct (py_getitem data "embeddings") as [recs|e] eqn:Hrecs;
    [|left; unfold index_embeddings, try_except, index_embeddings_body;
      rewrite (bind_lift_ok _ _ _ false) by done; cbv beta iota;
      rewrite (bind_lift_ok _ _ _ vid) by done;
      by rewrite (bind_lift_raise _ _ _ e)].
  destruct (truthy recs) eqn:Htruthy;
    [|left; unfold index_embeddings, try_except, index_embeddings_body;
      rewrite (bind_lift_ok _ _ _ false) by done; cbv beta iota;
      rewrite (bind_lift_ok _ _ _ vid) by done;
      rewrite (bind_lift_ok _ _ _ recs) by done;
      by rewrite Htruthy].
  right.
  assert (forall k : json -> M state response,
             index_embeddings data s =
             try_except (get_faiss_index;;
                         let* items := lift (py_iter recs) in
                         let* rows := lift (result_mapM
                                              (fun e => py_getitem e "embedding")
                                              items) in
                         let* vs := lift (np_array rows) in
                         let* start_idx := read_ntotal in
                         faiss_add vs;;
                         update_metadata vid start_idx 0 items;;
                         save_faiss_index;;
                         let* total := read_ntotal in
                         ret (jsonify
                                [("message",
                                  JStr ("Indexed " +:+
                                        py_str (Z.of_nat (length items)) +:+
                                        " vectors"));
                                 ("total_vectors", JInt total)])) s) as Hbody.
  { intros _. unfold index_embeddings, try_except, index_embeddings_body.
    rewrite (bind_lift_ok _ _ _ false) by done. cbv beta iota.
    rewrite (bind_lift_ok _ _ _ vid) by done.
    rewrite (bind_lift_ok _ _ _ recs) by done.
    by rewrite Htruthy. }
  specialize (Hbody (fun _ => ret (jsonify []))).
  destruct (py_iter recs) as [items|e] eqn:Hitems;
    [|left; rewrite Hbody; unfold try_except;
      rewrite (bind_ok _ _ _ _ _ Hget);
      by rewrite (bind_lift_raise _ _ _ e)].
  destruct (result_mapM (fun e => py_getitem e "embedding") items)
    as [rows|e] eqn:Hrows;
    [|left; rewrite Hbody; unfold try_except;
      rewrite (bind_ok _ _ _ _ _ Hget);
      rewrite (bind_lift_ok _ _ _ items) by done;
      by rewrite (bind_lift_raise _ _ _ e)].
  destruct (np_array rows) as [vs|e] eqn:Hvs;
    [|left; rewrite Hbody; unfold try_except;
      rewrite (bind_ok _ _ _ _ _ Hget);
      rewrite (bind_lift_ok _ _ _ items) by done;
      rewrite (bind_lift_ok _ _ _ rows) by done;
      by rewrite (bind_lift_raise _ _ _ e)].
  destruct (forallb (fun v => Nat.eqb (length v) (d (current_index s))) vs)
    eqn:Hdim;
    [|left; rewrite Hbody; unfold try_except;
      rewrite (bind_ok _ _ _ _ _ Hget);
      rewrite (bind_lift_ok _ _ _ items) by done;
      rewrite (bind_lift_ok _ _ _ rows) by done;
      rewrite (bind_lift_ok _ _ _ vs) by done;
      rewrite (bind_ok _ _ _ _ _ (read_ntotal_loaded s));
      by rewrite (bind_raise _ _ _ _ _ (faiss_add_raise vs _ _ Hix Hdim))].
  right.
  destruct (result_mapM_total (fun e => py_getitem e "id") items) as [ids Hi].
  { apply Forall_forall. intros e He. rewrite forallb_forall in Hids.
    specialize (Hids e (proj1 (list_elem_of_In _ _) He)).
    destruct (py_getitem e "id") as [id|]; [eauto | discriminate]. }
  apply result_mapM_Forall2 in Hi.
  exists vid, ids, vs. split.
  - rewrite <- (Forall2_length _ _ _ Hi).
    apply result_mapM_Forall2 in Hrows, Hvs.
    rewrite (Forall2_length _ _ _ Hrows). by eapply Forall2_length.
  - by rewrite (index_run data s vid recs items ids rows vs).
Qed.

Lemma inv_indexed vid ids vs s :
  inv s -> length ids = length vs -> inv (indexed vid ids vs s).
Proof.
  intros Hs Hlen. apply inv_loaded in Hs as [Hm _].
  destruct (get_faiss_index_loaded s) as [_ Hix]. rewrite Hix in Hm.
  assert (consistent
            (mkIndex (d (current_index s)) (vectors (current_index s) ++ vs))
            (record_entries vid (ntotal (current_index s)) 0 ids
                            (metadata (loaded s)))) as Hc.
  { unfold consistent in *. cbn [vectors].
    rewrite dom_record_entries, Hm, length_app, position_keys_app.
    unfold ntotal. by rewrite Hlen. }
  unfold indexed, inv, disk_ok. cbn. split; [done|]. eauto.
Qed.

Lemma inv_store s s0 : store s = store s0 -> inv s0 -> inv s.
Proof.
  destruct s as [mo fi md dk tr], s0 as [mo0 fi0 md0 dk0 tr0].
  unfold store. simpl. by intros [= -> -> ->].
Qed.

Lemma inv_store_kept s0 s : store_kept s0 s -> inv s0 -> inv s.
Proof.
  intros [H|H] Hs0; eapply inv_store; eauto using inv_loaded.
Qed.

Lemma inv_clear_index s : inv (snd (clear_index s)).
Proof.
  destruct s as [mo fi md dk tr]. unfold inv, disk_ok, consistent. cbn.
  split; [done|]. by exists ∅.
Qed.

Lemma inv_boot f : disk_ok f -> inv (boot f).
Proof. intros H. by split. Qed.

Lemma inv_step encode o s : well_formed o -> inv s -> inv (step encode o s).
Proof.
  intros Ho Hs. destruct o; cbn [step].
  - eapply inv_store_kept; [apply health_store_kept | done].
  - eapply inv_store_kept; [apply embed_store_kept | done].
  - destruct (index_embeddings_cases data s Ho)
      as [-> | [-> | (vid & ids & vs & Hlen & ->)]];
      auto using inv_loaded, inv_indexed.
  - eapply inv_store_kept; [apply search_store_kept | done].
  - apply inv_clear_index.
  - apply inv_boot. by destruct Hs.
Qed.

Lemma inv_run encode ops s :
  Forall well_formed ops -> inv s -> inv (run encode ops s).
Proof.
  intros Hops. revert s. induction Hops as [|o ops Ho _ IH]; intros s Hs.
  - done.
  - simpl. apply IH. by apply inv_step.
Qed.

(** *** Positions are kept by everything but /clear and a restart *)


Lemma extends_store s s' : store s' = store s -> extends s s'.
Proof.
  destruct s as [mo fi md dk tr], s' as [mo' fi' md' dk' tr'].
  unfold store, extends, stored. simpl. by intros [= -> -> ->].
Qed.

Lemma extends_loaded s : inv s -> extends s (loaded s).
Proof.
  destruct s as [mo fi md [fix_ fmd] tr]. unfold inv, extends, stored. simpl.
  unfold loaded, get_faiss_index, bind, get_state, modify, ret. simpl.
  intros [Hm _]. destruct fi as [ix|]; simpl; [done|]. subst md.
  destruct fix_ as [ix|]; simpl.
  - split; [apply prefix_nil|]. destruct fmd; simpl; apply map_empty_subseteq.
  - split; [done|]. apply map_empty_subseteq.
Qed.

Lemma extends_trans s1 s2 s3 : extends s1 s2 -> extends s2 s3 -> extends s1 s3.
Proof.
  intros [H1 H2] [H3 H4]. split; [by etrans | by etrans].
Qed.

Lemma extends_indexed vid ids vs s :
  inv s -> extends s (indexed vid ids vs s).
Proof.
  intros Hs. apply extends_trans with (loaded s); [by apply extends_loaded|].
  apply inv_loaded in Hs as [Hm _].
  destruct (get_faiss_index_loaded s) as [_ Hix]. rewrite Hix in Hm.
  unfold extends, stored, indexed. rewrite Hix. cbn. split.
  - by apply prefix_app_r.
  - apply map_subseteq_spec. intros key e He.
    rewrite lookup_record_entries_other; [done|].
    intros j _ ->.
    assert (py_str (ntotal (current_index s) + 0 + Z.of_nat j)
              ∈ dom (metadata (loaded s))) as Hin
      by (apply elem_of_dom; eauto).
    rewrite Hm in Hin. unfold position_keys in Hin.
    apply elem_of_list_to_set, list_elem_of_In, in_map_iff in Hin
      as (i & Heq & Hi).
    apply py_str_inj in Heq. apply in_seq in Hi. unfold ntotal in Heq. lia.
Qed.

Lemma extends_step encode o s :
  well_formed o -> keeps_positions o = true -> inv s ->
  extends s (step encode o s).
Proof.
  intros Ho Hk Hs.
  assert (forall s', store_kept s s' -> extends s s') as Hkept.
  { intros s' [H|H]; [by apply extends_store|].
    eapply extends_trans; [by apply extends_loaded|]. by apply extends_store. }
  destruct o; try discriminate; cbn [step].
  - apply Hkept, health_store_kept.
  - apply Hkept, embed_store_kept.
  - destruct (index_embeddings_cases data s Ho)
      as [-> | [-> | (vid & ids & vs & Hlen & ->)]].
    + by apply extends_store.
    + by apply extends_loaded.
    + by apply extends_indexed.
  - apply Hkept, search_store_kept.
Qed.

(** C5 (as amended): in every state reached from a start whose files are
    absent or were written together, by requests whose /index records all
    carry an id and by restarts, the metadata has exactly one entry per
    vector position, so the two counts agree; creation, loading, indexing
    and clearing all keep this.  Every request other than /clear keeps each
    stored vector and each metadata entry at its position (new vectors take
    the next positions), while /clear empties index and metadata, after
    which positions are assigned again from 0. *)
Theorem metadata_tracks_vectors encode :
  (forall f ops,
      disk_ok f -> Forall well_formed ops ->
      inv (run encode ops (boot f)) /\
      size (metadata (run encode ops (boot f))) =
        vector_count (run encode ops (boot f))) /\
  (forall s o,
      inv s -> well_formed o -> inv (step encode o s)) /\
  (forall s o,
      inv s -> well_formed o -> keeps_positions o = true ->
      stored s `prefix_of` stored (step encode o s) /\
      metadata s ⊆ metadata (step encode o s)) /\
  (forall s,
      stored (step encode ClearReq s) = [] /\
      metadata (step encode ClearReq s) = ∅).
Proof.
  split; [|split; [|split]].
  - intros f ops Hf Hops.
    assert (inv (run encode ops (boot f))) as H
      by (apply inv_run; [done | by apply inv_boot]).
    split; [done | by apply inv_size].
  - intros s o Hs Ho. by apply inv_step.
  - intros s o Hs Ho Hk. by apply extends_step.
  - intros [mo fi md dk tr]. by cbn.
Qed.

Lemma metadata_tracks_vectors_witness :
  size (metadata (run toy_encode
                    [IndexReq (JObj [("embeddings", JArr [record 1 1; record 2 2])]);
                     SearchReq (JObj [("query", JStr "cats")]);
                     Restart; Health;
                     IndexReq (JObj [("embeddings", JArr [record 3 3])])]
                    (boot no_files))) =
  vector_count (run toy_encode
                  [IndexReq (JObj [("embeddings", JArr [record 1 1; record 2 2])]);
                   SearchReq (JObj [("query", JStr "cats")]);
                   Restart; Health;
                   IndexReq (JObj [("embeddings", JArr [record 3 3])])]
                  (boot no_files)).
Proof.
  refine (proj2 (proj1 (metadata_tracks_vectors toy_encode) no_files _ _ _)).
  - exact I.
  - repeat constructor.
Defined.

(** C5 (as stated) fails: positions are reused.  After /clear the next
    batch is numbered from 0 again, so position 0, which held transcript 1,
    holds transcript 2. *)
Lemma position_reused_after_clear :
  let s1 := run toy_encode
              [IndexReq (JObj [("embeddings", JArr [record 1 1])])]
              (boot no_files) in
  let s2 := run toy_encode
              [ClearReq; IndexReq (JObj [("embeddings", JArr [record 2 2])])]
              s1 in
  metadata s1 !! py_str 0 = Some (mkMeta (JInt 1) JNull) /\
  metadata s2 !! py_str 0 = Some (mkMeta (JInt 2) JNull) /\
  ~ metadata s1 ⊆ metadata s2.
Proof.
  cbv zeta. split; [by vm_compute|]. split; [by vm_compute|].
  intros H. rewrite map_subseteq_spec in H.
  specialize (H (py_str 0) (mkMeta (JInt 1) JNull)).
  assert (Some (mkMeta (JInt 2) JNull) = Some (mkMeta (JInt 1) JNull)) as Heq;
    [|discriminate].
  etrans; [|apply H; by vm_compute]. symmetry. by vm_compute.
Qed.

(** A record without an id makes /index fail after the vectors were added:
    the answer is a 500 and the index is one vector ahead of the metadata.
    (This is why C5 asks for records that carry an id.) *)
Lemma index_without_id_leaves_gap :
  let r := index_embeddings
             (JObj [("embeddings", JArr [JObj [("embedding", axis_vector 1)]])])
             (boot no_files) in
  status (fst r) = 500 /\
  vector_count (snd r) = 1%nat /\
  size (metadata (snd r)) = 0%nat.
Proof. by vm_compute. Qed.

End EmbedProps.

(** * Properties of the transcription service *)

Module WhisperProps.

Import Whisper MonadProps.
Local Open Scope py_scope.

Section WithEnv.

Variable path_exists : json -> option bool.
Variable whisper_transcribe : json -> json -> option transcription.

Lemma transcribe_no_body s data :
  truthy data = false ->
  transcribe path_exists whisper_transcribe data s =
  (mkResponse 400 (JObj [("error", JStr "audio_path is required")]), s).
Proof.
  intros H. unfold transcribe, try_except, transcribe_body, missing.
  by rewrite H.
Qed.

Lemma transcribe_no_path s kvs :
  assoc "audio_path" kvs = None ->
  transcribe path_exists whisper_transcribe (JObj kvs) s =
  (mkResponse 400 (JObj [("error", JStr "audio_path is required")]), s).
Proof.
  intros Hk. unfold transcribe, try_except, transcribe_body.
  by rewrite (bind_lift_ok _ _ _ true)
    by (rewrite missing_obj, Hk; by rewrite bool_decide_true).
Qed.

Lemma transcribe_no_file s kvs p :
  assoc "audio_path" kvs = Some p ->
  path_exists p = Some false ->
  transcribe path_exists whisper_transcribe (JObj kvs) s =
  (mkResponse 404
     (JObj [("error", JStr ("Audio file not found: " +:+ py_format p))]), s).
Proof.
  intros Hk Hp. unfold transcribe, try_except, transcribe_body.
  rewrite (bind_lift_ok _ _ _ false)
    by (rewrite missing_obj, Hk; by rewrite bool_decide_false).
  cbv beta iota. cbn [py_getitem]. rewrite Hk. cbn [of_option].
  rewrite (bind_lift_ok _ _ _ p) by done.
  by rewrite (bind_lift_ok _ _ _ false) by by rewrite Hp.
Qed.

End WithEnv.

(** C8: a /transcribe request whose body has no [audio_path] field (or is
    empty) is answered with HTTP 400 and an [error] body; one whose
    [audio_path] is present but names no existing file is answered with
    HTTP 404 and an [error] body.  In both cases the state is returned as
    it was found: the speech model is neither loaded nor called. *)
Theorem transcribe_missing_path_or_file path_exists whisper_transcribe :
  (forall s kvs,
      assoc "audio_path" kvs = None ->
      transcribe path_exists whisper_transcribe (JObj kvs) s =
      (mkResponse 400 (JObj [("error", JStr "audio_path is required")]), s)) /\
  (forall s data,
      truthy data = false ->
      transcribe path_exists whisper_transcribe data s =
      (mkResponse 400 (JObj [("error", JStr "audio_path is required")]), s)) /\
  (forall s kvs p,
      assoc "audio_path" kvs = Some p ->
      path_exists p = Some false ->
      transcribe path_exists whisper_transcribe (JObj kvs) s =
      (mkResponse 404
         (JObj [("error", JStr ("Audio file not found: " +:+ py_format p))]),
       s) /\
      trace (snd (transcribe path_exists whisper_transcribe (JObj kvs) s)) =
        trace s).
Proof.
  split; [|split].
  - intros s kvs. apply transcribe_no_path.
  - intros s data. apply transcribe_no_body.
  - intros s kvs p Hk Hp.
    by rewrite (transcribe_no_file _ _ s kvs p Hk Hp).
Qed.

Lemma transcribe_missing_path_or_file_witness :
  transcribe (fun _ => Some false) (fun _ _ => None)
    (JObj [("audio_path", JStr "/tmp/none.wav"); ("language", JStr "en")])
    (mkState false []) =
  (mkResponse 404
     (JObj [("error", JStr "Audio file not found: /tmp/none.wav")]),
   mkState false []).
Proof.
  exact (proj1 (proj2 (proj2 (transcribe_missing_path_or_file
                                (fun _ => Some false) (fun _ _ => None)))
                 (mkState false [])
                 [("audio_path", JStr "/tmp/none.wav"); ("language", JStr "en")]
                 (JStr "/tmp/none.wav") eq_refl eq_refl)).
Defined.

End WhisperProps.

(** * Further properties of the embedding and search service *)

Module EmbedExtra.

Import Embed MonadProps EmbedProps.
Local Open Scope py_scope.

(** ** The model is loaded once *)

Lemma load_count_app tr e :
  load_count (tr ++ [e]) =
  (load_count tr + match e with LoadModel => 1 | _ => 0 end)%nat.
Proof.
  induction tr as [|e' tr IH]; simpl.
  - by destruct e.
  - destruct e'; simpl; rewrite IH; lia.
Qed.

Lemma loaded_once_frame s s' :
  model s' = model s -> load_count (trace s') = load_count (trace s) ->
  loaded_once s -> loaded_once s'.
Proof. unfold loaded_once. by intros -> ->. Qed.

Lemma loaded_once_get_model : preserves loaded_once get_model.
Proof.
  intros s [H1 H2]. rewrite get_model_run. cbn [snd].
  destruct (model s) eqn:Hm; [split; [done | intros ?; congruence]|].
  split; [|done]. cbn. rewrite load_count_app, H2 by done. simpl. lia.
Qed.

Lemma loaded_once_get_faiss_index : preserves loaded_once get_faiss_index.
Proof.
  intros s. change (snd (get_faiss_index s)) with (loaded s).
  destruct (loaded_fields s) as (Hm & _ & Ht).
  apply loaded_once_frame; [done | by rewrite Ht].
Qed.

Lemma loaded_once_read_ntotal : preserves loaded_once read_ntotal.
Proof. run_primitive. by destruct fi. Qed.

Lemma loaded_once_call_encode encode texts :
  preserves loaded_once (call_encode encode texts).
Proof.
  intros s. apply loaded_once_frame.
  - unfold call_encode, bind, modify, lift. by destruct (encode texts).
  - unfold call_encode, bind, modify, lift.
    destruct (encode texts); cbn; rewrite load_count_app; simpl; lia.
Qed.

Lemma index_search_state qs k s :
  snd (index_search qs k s) = log (Search k) s.
Proof.
  unfold index_search, bind, modify, get_state, raise, ret. cbn.
  by repeat (case_match; cbn).
Qed.

Lemma loaded_once_index_search qs k : preserves loaded_once (index_search qs k).
Proof.
  intros s. rewrite index_search_state. apply loaded_once_frame; [done|].
  cbn. rewrite load_count_app. simpl. lia.
Qed.

Lemma loaded_once_faiss_add vs : preserves loaded_once (faiss_add vs).
Proof.
  intros [mo fi md dk tr]. unfold faiss_add, bind, get_state, modify, raise.
  simpl. intros H. by repeat (case_match; simpl).
Qed.

Lemma loaded_once_save : preserves loaded_once save_faiss_index.
Proof. run_primitive. by destruct fi. Qed.

Lemma loaded_once_modify_index ix :
  preserves loaded_once (modify (set_faiss_index ix)).
Proof. by intros [mo fi md dk tr]. Qed.

Lemma loaded_once_modify_metadata m :
  preserves loaded_once (modify (set_metadata m)).
Proof. by intros [mo fi md dk tr]. Qed.

Lemma loaded_once_update_metadata vid start_idx i items :
  preserves loaded_once (update_metadata vid start_idx i items).
Proof.
  revert i. induction items as [|emb items IH]; intros i; simpl.
  - apply preserves_ret.
  - apply preserves_bind; [apply preserves_lift|]. intros id.
    apply preserves_bind; [by intros [mo fi md dk tr]|]. intros _. apply IH.
Qed.

#[local] Hint Resolve loaded_once_get_model loaded_once_get_faiss_index
  loaded_once_read_ntotal loaded_once_call_encode loaded_once_index_search
  loaded_once_faiss_add loaded_once_save loaded_once_modify_index
  loaded_once_modify_metadata loaded_once_update_metadata : primitives.

Lemma loaded_once_step encode o s :
  loaded_once s -> loaded_once (step encode o s).
Proof.
  intros Hs. destruct o; cbn [step].
  - unfold health. pose proof (loaded_once_get_faiss_index s Hs) as H.
    by destruct (get_faiss_index s) as [[ix|e] s1].
  - unfold embed. apply preserves_try; [|done]. unfold embed_body.
    step_preserves.
  - unfold index_embeddings. apply preserves_try; [|done].
    unfold index_embeddings_body. step_preserves.
  - unfold search. apply preserves_try; [|done]. unfold search_body.
    step_preserves.
  - unfold clear_index. apply preserves_try; [|done]. step_preserves.
  - split; [simpl; lia | done].
Qed.

(** X1: whatever requests and restarts a process goes through, the
    embedding model is loaded at most once per process: [get_model] loads
    it on first use and returns the loaded one afterwards. *)
Theorem embedding_model_loaded_once encode ops f :
  (load_count (trace (run encode ops (boot f))) <= 1)%nat /\
  (model (run encode ops (boot f)) = false ->
   load_count (trace (run encode ops (boot f))) = 0%nat).
Proof.
  assert (forall s, loaded_once s -> loaded_once (run encode ops s)) as H.
  { induction ops as [|o ops IH]; intros s Hs; [done|].
    simpl. apply IH. by apply loaded_once_step. }
  apply H. split; [simpl; lia | done].
Qed.

(** ** Routes that only read *)

Lemma store_kept_view s s' :
  store_kept s s' ->
  disk s' = disk s /\ store (loaded s') = store (loaded s).
Proof.
  intros [H|H].
  - split; [|by apply store_loaded].
    unfold store in H. by injection H.
  - split.
    + unfold store in H. injection H as _ _ ->.
      by destruct (loaded_fields s) as (_ & -> & _).
    + rewrite (store_loaded _ _ H). by rewrite loaded_idem.
Qed.

(** X2: /health, /embed and /search never write the files, and leave the
    index and the metadata as every later request will see them (they may
    only trigger the lazy creation or loading of the index). *)
Theorem reading_routes_keep_index encode o s :
  reads_only o = true ->
  disk (step encode o s) = disk s /\
  stored (loaded (step encode o s)) = stored (loaded s) /\
  metadata (loaded (step encode o s)) = metadata (loaded s).
Proof.
  intros Ho.
  assert (store_kept s (step encode o s)) as H.
  { destruct o; try discriminate; cbn [step].
    - apply health_store_kept.
    - apply embed_store_kept.
    - apply search_store_kept. }
  apply store_kept_view in H as [Hd Hs]. split; [done|].
  unfold store in Hs. injection Hs as Hix Hmd _.
  unfold stored. by rewrite Hix, Hmd.
Qed.

Lemma reading_routes_keep_index_witness :
  stored (loaded (step toy_encode
                    (SearchReq (JObj [("query", JStr "cats")])) two_videos)) =
  stored (loaded two_videos).
Proof.
  exact (proj1 (proj2 (reading_routes_keep_index toy_encode
                         (SearchReq (JObj [("query", JStr "cats")]))
                         two_videos eq_refl))).
Defined.

(** ** POST /embed: missing key, empty list, malformed segment *)

(** X3: for a JSON-object body /embed answers 400 exactly when the
    [segments] key is absent; a present but empty (or otherwise falsy)
    [segments] value is answered with [{"embeddings": []}] and leaves the
    state untouched: the model is not even loaded. *)
Theorem embed_missing_or_empty encode :
  (forall s kvs,
      status (fst (embed encode (JObj kvs) s)) = 400 <->
      assoc "segments" kvs = None) /\
  (forall s kvs v,
      assoc "segments" kvs = Some v -> truthy v = false ->
      embed encode (JObj kvs) s =
      (mkResponse 200 (JObj [("embeddings", JArr [])]), s)).
Proof.
  split.
  - intros s kvs. split.
    + intros H. destruct (assoc "segments" kvs) as [v|] eqn:Hk; [|done].
      exfalso. revert H. unfold embed.
      apply try_except_status; [|done].
      intros s0 r s1. unfold embed_body.
      rewrite (bind_lift_ok _ _ _ false)
        by (rewrite missing_obj, Hk; by rewrite bool_decide_false).
      revert s0 r s1.
      match goal with |- forall s0 r s1, ?c s0 = _ -> _ => change (avoids 400 c) end.
      step_avoids.
    + intros Hk. unfold embed, try_except, embed_body.
      by rewrite (bind_lift_ok _ _ _ true)
        by (rewrite missing_obj, Hk; by rewrite bool_decide_true).
  - intros s kvs v Hk Hv. unfold embed, try_except, embed_body.
    rewrite (bind_lift_ok _ _ _ false)
      by (rewrite missing_obj, Hk; by rewrite bool_decide_false).
    cbn [py_getitem]. rewrite Hk. cbn. by rewrite Hv.
Qed.

Lemma embed_missing_or_empty_witness :
  embed toy_encode (JObj [("segments", JArr [])]) (boot no_files) =
  (mkResponse 200 (JObj [("embeddings", JArr [])]), boot no_files).
Proof.
  exact (proj2 (embed_missing_or_empty toy_encode) (boot no_files)
           [("segments", JArr [])] (JArr []) eq_refl eq_refl).
Defined.

(** ** POST /search: missing query *)

(** X4: for a JSON-object body /search answers 400 exactly when the
    [query] key is absent, and then returns before touching the model or
    the index: the state is unchanged. *)
Theorem search_missing_query encode :
  (forall s kvs,
      status (fst (search encode (JObj kvs) s)) = 400 <->
      assoc "query" kvs = None) /\
  (forall s kvs,
      assoc "query" kvs = None ->
      search encode (JObj kvs) s =
      (mkResponse 400 (JObj [("error", JStr "query is required")]), s)).
Proof.
  assert (forall s kvs, assoc "query" kvs = None ->
            search encode (JObj kvs) s =
            (mkResponse 400 (JObj [("error", JStr "query is required")]), s))
    as Habsent.
  { intros s kvs Hk. unfold search, try_except, search_body.
    by rewrite (bind_lift_ok _ _ _ true)
      by (rewrite missing_obj, Hk; by rewrite bool_decide_true). }
  split; [|done].
  intros s kvs. split.
  - intros H. destruct (assoc "query" kvs) as [v|] eqn:Hk; [|done].
    exfalso. revert H. unfold search.
    apply try_except_status; [|done].
    intros s0 r s1. unfold search_body.
    rewrite (bind_lift_ok _ _ _ false)
      by (rewrite missing_obj, Hk; by rewrite bool_decide_false).
    revert s0 r s1.
    match goal with |- forall s0 r s1, ?c s0 = _ -> _ => change (avoids 400 c) end.
    step_avoids.
  - intros Hk. by rewrite Habsent.
Qed.

Lemma search_missing_query_witness :
  search toy_encode (JObj [("top_k", JInt 3)]) (boot no_files) =
  (mkResponse 400 (JObj [("error", JStr "query is required")]), boot no_files).
Proof.
  exact (proj2 (search_missing_query toy_encode) (boot no_files)
           [("top_k", JInt 3)] eq_refl).
Defined.

Lemma result_mapM_raise {A B : Type} (f : A -> result B) l a e :
  a ∈ l -> f a = Raise e -> exists e', result_mapM f l = Raise e'.
Proof.
  intros Hin Ha. induction Hin as [a l|a b l _ IH]; simpl.
  - rewrite Ha. eauto.
  - destruct (f b); [|eauto]. destruct (IH Ha) as [e' ->]. eauto.
Qed.

(** The part of /embed after the checks of the body, up to the call of the
    model. *)
Lemma embed_reaches_model encode s kvs segs :
  assoc "segments" kvs = Some (JArr segs) ->
  segs <> [] ->
  embed encode (JObj kvs) s =
  try_except
    (let* texts := lift (result_mapM (fun seg => py_getitem seg "text") segs) in
     let* ids := lift (result_mapM (fun seg => py_getitem seg "id") segs) in
     let* embeddings := call_encode encode texts in
     ret (jsonify
            [("embeddings",
              JArr (zip_with
                      (fun seg_id embedding =>
                         JObj [("id", seg_id);
                               ("embedding", JArr (map JFloat embedding))])
                      ids embeddings))]))
    (if model s then s else set_model true (log LoadModel s)).
Proof.
  intros Hk Hne. unfold embed, try_except, embed_body.
  rewrite (bind_lift_ok _ _ _ false)
    by (rewrite missing_obj, Hk; by rewrite bool_decide_false).
  cbv beta iota. cbn [py_getitem]. rewrite Hk. cbn [of_option].
  rewrite (bind_lift_ok _ _ _ (JArr segs)) by done.
  assert (truthy (JArr segs) = true) as -> by by destruct segs.
  cbn [negb]. rewrite (bind_ok _ _ _ _ _ (get_model_run s)).
  by rewrite (bind_lift_ok _ _ _ segs) by done.
Qed.

(** X5: if some segment of a non-empty list has no [text] or no [id],
    /embed answers 500 without ever calling the model's [encode]; the only
    effect is that the model object may have been loaded. *)
Theorem embed_malformed_segment encode s kvs segs seg key e :
  assoc "segments" kvs = Some (JArr segs) ->
  seg ∈ segs ->
  key = "text" \/ key = "id" ->
  py_getitem seg key = Raise e ->
  status (fst (embed encode (JObj kvs) s)) = 500 /\
  snd (embed encode (JObj kvs) s) =
    (if model s then s else set_model true (log LoadModel s)).
Proof.
  intros Hk Hin Hkey Hraise.
  assert (segs <> []) as Hne by (intros ->; by apply not_elem_of_nil in Hin).
  rewrite (embed_reaches_model encode s kvs segs Hk Hne). unfold try_except.
  destruct (result_mapM (fun seg => py_getitem seg "text") segs)
    as [texts|e1] eqn:Htexts.
  - rewrite (bind_lift_ok _ _ _ texts) by done.
    destruct Hkey as [-> | ->].
    + destruct (result_mapM_raise (fun seg => py_getitem seg "text")
                  segs seg e Hin Hraise) as [e' He']. congruence.
    + destruct (result_mapM_raise (fun seg => py_getitem seg "id")
                  segs seg e Hin Hraise) as [e' He'].
      by rewrite (bind_lift_raise _ _ _ e').
  - by rewrite (bind_lift_raise _ _ _ e1).
Qed.

Lemma embed_malformed_segment_witness :
  status (fst (embed toy_encode
                 (JObj [("segments",
                         JArr [JObj [("id", JInt 1); ("text", JStr "hello")];
                               JObj [("id", JInt 2)]])])
                 (boot no_files))) = 500.
Proof.
  refine (proj1 (embed_malformed_segment toy_encode (boot no_files)
                   [("segments",
                     JArr [JObj [("id", JInt 1); ("text", JStr "hello")];
                           JObj [("id", JInt 2)]])]
                   [JObj [("id", JInt 1); ("text", JStr "hello")];
                    JObj [("id", JInt 2)]]
                   (JObj [("id", JInt 2)]) "text" (KeyError "text")
                   eq_refl _ (or_introl eq_refl) eq_refl)).
  apply list_elem_of_In. simpl. auto.
Defined.

(** X6: for segments that all have a text and an id, /embed calls the model
    exactly once, on the list of all texts in input order; whatever rows the
    model returns, entry [i] of the answer pairs the id of segment [i] with
    row [i], so the answer has as many entries as the shorter of the two
    lists; if the model raises, the answer is 500. *)
Theorem embed_single_batch_call encode s kvs segs ids texts :
  assoc "segments" kvs = Some (JArr segs) ->
  segs <> [] ->
  Forall2 (fun seg id => py_getitem seg "id" = Ok id) segs ids ->
  Forall2 (fun seg t => py_getitem seg "text" = Ok t) segs texts ->
  trace (snd (embed encode (JObj kvs) s)) =
    trace s ++ (if model s then [] else [LoadModel]) ++ [Encode texts] /\
  match encode texts with
  | Some rows =>
      status (fst (embed encode (JObj kvs) s)) = 200 /\
      embeddings_of (fst (embed encode (JObj kvs) s)) =
        zip_with (fun id row => JObj [("id", id);
                                      ("embedding", JArr (map JFloat row))])
                 ids rows /\
      length (embeddings_of (fst (embed encode (JObj kvs) s))) =
        Nat.min (length segs) (length rows)
  | None => status (fst (embed encode (JObj kvs) s)) = 500
  end.
Proof.
  intros Hk Hne Hids Htexts.
  rewrite (embed_reaches_model encode s kvs segs Hk Hne). unfold try_except.
  rewrite (bind_lift_ok _ _ _ texts) by by apply result_mapM_Forall2.
  rewrite (bind_lift_ok _ _ _ ids) by by apply result_mapM_Forall2.
  unfold call_encode, bind, modify, lift, ret.
  destruct (encode texts) as [rows|]; cbn [of_option fst snd].
  - split.
    + destruct (model s); cbn; by rewrite <- ?app_assoc.
    + split; [done|]. rewrite embeddings_of_jsonify. split; [done|].
      rewrite length_zip_with. by rewrite (Forall2_length _ _ _ Hids).
  - split; [|done]. destruct (model s); cbn; by rewrite <- ?app_assoc.
Qed.

Lemma embed_single_batch_call_witness :
  trace (snd (embed toy_encode
                (JObj [("segments",
                        JArr [JObj [("id", JInt 1); ("text", JStr "a")];
                              JObj [("id", JInt 2); ("text", JStr "b")]])])
                (boot no_files))) =
  [LoadModel; Encode [JStr "a"; JStr "b"]].
Proof.
  refine (proj1 (embed_single_batch_call toy_encode (boot no_files)
                   [("segments",
                     JArr [JObj [("id", JInt 1); ("text", JStr "a")];
                           JObj [("id", JInt 2); ("text", JStr "b")]])]
                   [JObj [("id", JInt 1); ("text", JStr "a")];
                    JObj [("id", JInt 2); ("text", JStr "b")]]
                   [JInt 1; JInt 2] [JStr "a"; JStr "b"]
                   eq_refl _ _ _)).
  - discriminate.
  - by repeat constructor.
  - by repeat constructor.
Defined.

(** ** POST /index: whole batches *)




Lemma batch_convert n recs :
  Forall (fun rec => exists id v, record_of n rec id v) recs ->
  Forall2 (fun e id => py_getitem e "id" = Ok id) recs (map record_id recs) /\
  exists rows,
    result_mapM (fun e => py_getitem e "embedding") recs = Ok rows /\
    np_array rows = Ok (map record_vector recs) /\
    forallb (fun v => Nat.eqb (length v) n) (map record_vector recs) = true.
Proof.
  induction 1 as [|rec recs (id & v & Hid & row & Hrow & Hv & Hlen) _
                    (Hids & rows & Hrows & Hvs & Hdim)].
  - split; [constructor|]. by exists [].
  - assert (record_id rec = id) as Hrid by (unfold record_id; by rewrite Hid).
    assert (record_vector rec = v) as Hrv
      by (unfold record_vector; by rewrite Hrow, Hv).
    split; [constructor; [by rewrite Hrid | done]|].
    exists (row :: rows). cbn [result_mapM map forallb].
    rewrite Hrow, Hrows. split; [done|].
    unfold np_array in *. cbn [result_mapM]. rewrite Hv, Hvs, Hrv.
    split; [done|]. rewrite Hdim, <- Hlen, Nat.eqb_refl. done.
Qed.

(** The answer and the final state of /index on a well-formed batch. *)
Lemma index_batch s kvs recs :
  batch_of (d (current_index s)) kvs recs ->
  index_embeddings (JObj kvs) s =
  (jsonify
     [("message",
       JStr ("Indexed " +:+ py_str (Z.of_nat (length recs)) +:+ " vectors"));
      ("total_vectors",
       JInt (ntotal (current_index s) + Z.of_nat (length recs)))],
   indexed (default JNull (assoc "video_id" kvs))
           (map record_id recs) (map record_vector recs) s).
Proof.
  intros (Hk & Hne & Hrecs).
  destruct (batch_convert _ _ Hrecs) as (Hids & rows & Hrows & Hvs & Hdim).
  rewrite (index_run (JObj kvs) s (default JNull (assoc "video_id" kvs))
             (JArr recs) recs (map record_id recs) rows
             (map record_vector recs)); try done.
  - by rewrite length_map.
  - rewrite missing_obj, Hk. by rewrite bool_decide_false.
  - cbn. by rewrite Hk.
  - by destruct recs.
Qed.

Lemma loaded_some s ix : faiss_index s = Some ix -> loaded s = s.
Proof.
  intros H. unfold loaded, get_faiss_index, bind, get_state. by rewrite H.
Qed.

Lemma indexed_loaded vid ids vs s :
  loaded (indexed vid ids vs s) = indexed vid ids vs s /\
  current_index (indexed vid ids vs s) =
    mkIndex (d (current_index s)) (vectors (current_index s) ++ vs).
Proof.
  assert (loaded (indexed vid ids vs s) = indexed vid ids vs s) as H
    by by eapply loaded_some.
  split; [done|]. unfold current_index at 1. by rewrite H.
Qed.

Lemma record_entries_app vid start_idx i ids1 ids2 m :
  record_entries vid start_idx i (ids1 ++ ids2) m =
  record_entries vid start_idx (i + Z.of_nat (length ids1)) ids2
    (record_entries vid start_idx i ids1 m).
Proof.
  revert i m. induction ids1 as [|id ids1 IH]; intros i m.
  - simpl. by rewrite Z.add_0_r.
  - cbn [app record_entries length]. rewrite IH. f_equal. lia.
Qed.

Lemma record_entries_shift vid a b i ids m :
  record_entries vid (a + b) i ids m = record_entries vid a (b + i) ids m.
Proof.
  revert i m. induction ids as [|id ids IH]; intros i m; [done|].
  cbn [record_entries]. rewrite IH.
  replace (a + b + i) with (a + (b + i)) by lia.
  by replace (b + (i + 1)) with (b + i + 1) by lia.
Qed.

Lemma indexed_indexed vid ids1 vs1 ids2 vs2 s :
  length ids1 = length vs1 ->
  indexed vid ids2 vs2 (indexed vid ids1 vs1 s) =
  indexed vid (ids1 ++ ids2) (vs1 ++ vs2) s.
Proof.
  intros Hlen. destruct (indexed_loaded vid ids1 vs1 s) as [Hl Hc].
  unfold indexed at 1. rewrite Hl, Hc. unfold indexed.
  cbn [d vectors model trace metadata].
  assert (record_entries vid
            (ntotal (mkIndex (d (current_index s))
                             (vectors (current_index s) ++ vs1)))
            0 ids2
            (record_entries vid (ntotal (current_index s)) 0 ids1
                            (metadata (loaded s))) =
          record_entries vid (ntotal (current_index s)) 0 (ids1 ++ ids2)
                         (metadata (loaded s))) as ->.
  { rewrite record_entries_app. unfold ntotal. cbn [vectors].
    rewrite length_app, Nat2Z.inj_add, record_entries_shift, Hlen.
    f_equal. lia. }
  by rewrite <- app_assoc.
Qed.

(** X8: indexing a batch and then a second one with the same video_id
    leaves the service in exactly the state (index, metadata, files) that
    indexing the concatenated batch in one request leaves. *)
Theorem index_batches_compose s kvs1 kvs2 kvs12 recs1 recs2 :
  batch_of (d (current_index s)) kvs1 recs1 ->
  batch_of (d (current_index s)) kvs2 recs2 ->
  assoc "embeddings" kvs12 = Some (JArr (recs1 ++ recs2)) ->
  default JNull (assoc "video_id" kvs2) = default JNull (assoc "video_id" kvs1) ->
  default JNull (assoc "video_id" kvs12) = default JNull (assoc "video_id" kvs1) ->
  snd (index_embeddings (JObj kvs2) (snd (index_embeddings (JObj kvs1) s))) =
  snd (index_embeddings (JObj kvs12) s).
Proof.
  intros H1 H2 Hk12 Hv2 Hv12.
  assert (batch_of (d (current_index s)) kvs12 (recs1 ++ recs2)) as H12.
  { destruct H1 as (_ & Hne & Hr1), H2 as (_ & _ & Hr2).
    split; [done|]. split; [by destruct recs1 | by apply Forall_app]. }
  rewrite (index_batch s kvs1 recs1 H1), (index_batch s kvs12 _ H12).
  cbn [snd].
  destruct (indexed_loaded (default JNull (assoc "video_id" kvs1))
              (map record_id recs1) (map record_vector recs1) s) as [Hl Hc].
  rewrite (index_batch _ kvs2 recs2) by by rewrite Hc.
  cbn [snd]. rewrite Hv2, Hv12, !map_app.
  apply indexed_indexed. by rewrite !length_map.
Qed.

Lemma index_batches_compose_witness :
  snd (index_embeddings (JObj [("embeddings", JArr [record 2 2])])
         (snd (index_embeddings (JObj [("embeddings", JArr [record 1 1])])
                 (boot no_files)))) =
  snd (index_embeddings (JObj [("embeddings", JArr [record 1 1; record 2 2])])
         (boot no_files)).
Proof.
  refine (index_batches_compose (boot no_files)
            [("embeddings", JArr [record 1 1])]
            [("embeddings", JArr [record 2 2])]
            [("embeddings", JArr [record 1 1; record 2 2])]
            [record 1 1] [record 2 2] _ _ eq_refl eq_refl eq_refl).
  - split; [done|]. split; [discriminate|]. repeat constructor.
    exists (JInt 1). eexists. split; [reflexivity|].
    eexists. repeat split; reflexivity.
  - split; [done|]. split; [discriminate|]. repeat constructor.
    exists (JInt 2). eexists. split; [reflexivity|].
    eexists. repeat split; reflexivity.
Defined.

(** ** Restarts *)

Lemma synced_store_kept s s' : store_kept s s' -> synced s -> synced s'.
Proof.
  intros H [H1 H2]. apply store_kept_view in H as [Hd Hs].
  unfold store in Hs. injection Hs as Hix Hmd _.
  unfold synced. by rewrite Hd, Hix, Hmd.
Qed.

Lemma synced_indexed vid ids vs s : synced (indexed vid ids vs s).
Proof.
  unfold synced. rewrite (proj1 (indexed_loaded vid ids vs s)). by cbn.
Qed.

Lemma synced_loaded s : synced s -> synced (loaded s).
Proof.
  intros [H1 H2]. unfold synced. rewrite loaded_idem.
  by destruct (loaded_fields s) as (_ & -> & _).
Qed.

Lemma synced_step encode o s :
  well_formed o -> synced s -> synced (step encode o s).
Proof.
  intros Ho Hs. destruct o; cbn [step].
  - eapply synced_store_kept; [apply health_store_kept | done].
  - eapply synced_store_kept; [apply embed_store_kept | done].
  - destruct (index_embeddings_cases data s Ho)
      as [-> | [-> | (vid & ids & vs & Hlen & ->)]];
      auto using synced_loaded, synced_indexed.
  - eapply synced_store_kept; [apply search_store_kept | done].
  - destruct s as [mo fi md dk tr]. by cbn.
  - by split.
Qed.

Lemma health_run s :
  health s =
  (jsonify [("status", JStr "ok"); ("model", JStr EMBEDDING_MODEL);
            ("index_size", JInt (ntotal (current_index s)))], loaded s).
Proof. unfold health. by destruct (get_faiss_index_loaded s) as [-> _]. Qed.

(** X9: after any sequence of requests whose /index records all carry an
    id, a restart loses nothing: the restarted process reloads the same
    vectors and metadata, and /health reports the same [index_size] as
    before the restart. *)
Theorem restart_keeps_index encode f ops :
  Forall well_formed ops ->
  fst (health (step encode Restart (run encode ops (boot f)))) =
    fst (health (run encode ops (boot f))) /\
  stored (loaded (step encode Restart (run encode ops (boot f)))) =
    stored (loaded (run encode ops (boot f))) /\
  metadata (loaded (step encode Restart (run encode ops (boot f)))) =
    metadata (loaded (run encode ops (boot f))).
Proof.
  intros Hops.
  assert (forall s, synced s -> synced (run encode ops s)) as Hrun.
  { induction Hops as [|o ops Ho _ IH]; intros s Hs; [done|].
    simpl. apply IH. by apply synced_step. }
  destruct (Hrun (boot f)) as [Hix Hmd]; [by split|].
  cbn [step]. rewrite !health_run. cbn [fst].
  unfold current_index, stored. by rewrite Hix, Hmd.
Qed.

Lemma restart_keeps_index_witness :
  fst (health (step toy_encode Restart
                 (run toy_encode
                    [IndexReq (JObj [("embeddings", JArr [record 1 1; record 2 2])]);
                     SearchReq (JObj [("query", JStr "cats")])]
                    (boot no_files)))) =
  fst (health (run toy_encode
                 [IndexReq (JObj [("embeddings", JArr [record 1 1; record 2 2])]);
                  SearchReq (JObj [("query", JStr "cats")])]
                 (boot no_files))).
Proof.
  refine (proj1 (restart_keeps_index toy_encode no_files _ _)).
  repeat constructor.
Defined.

(** ** POST /clear followed by POST /index *)

Lemma clear_index_run s :
  clear_index s =
  (jsonify [("message", JStr "Index cleared")],
   mkState (model s) (Some (mkIndex embedding_dim [])) ∅
           (mkFiles (Some (mkIndex embedding_dim [])) (Some ∅)) (trace s)).
Proof. by destruct s. Qed.

(** X10: whatever the service held before, after /clear a well-formed
    batch of [n] records leaves exactly [n] vectors, at positions
    [0 .. n-1] in input order, and exactly the [n] metadata entries of those
    positions; the answer reports [total_vectors = n]. *)
Theorem clear_then_index s kvs recs :
  batch_of embedding_dim kvs recs ->
  stored (snd (index_embeddings (JObj kvs) (snd (clear_index s)))) =
    map record_vector recs /\
  dom (metadata (snd (index_embeddings (JObj kvs) (snd (clear_index s))))) =
    position_keys (length recs) /\
  (forall i rec, recs !! i = Some rec ->
     metadata (snd (index_embeddings (JObj kvs) (snd (clear_index s))))
       !! py_str (Z.of_nat i) =
     Some (mkMeta (record_id rec) (default JNull (assoc "video_id" kvs)))) /\
  py_getitem (body (fst (index_embeddings (JObj kvs) (snd (clear_index s)))))
             "total_vectors" = Ok (JInt (Z.of_nat (length recs))).
Proof.
  intros Hb. rewrite clear_index_run. cbn [snd].
  set (sc := mkState (model s) (Some (mkIndex embedding_dim [])) ∅
                     (mkFiles (Some (mkIndex embedding_dim [])) (Some ∅))
                     (trace s)).
  assert (loaded sc = sc) as Hl by by eapply loaded_some.
  assert (current_index sc = mkIndex embedding_dim []) as Hc
    by (unfold current_index; by rewrite Hl).
  rewrite (index_batch sc kvs recs) by by rewrite Hc.
  cbn [fst snd]. unfold indexed. rewrite Hl, Hc. unfold stored.
  cbn [faiss_index metadata vectors app]. unfold ntotal. cbn [vectors length].
  change (metadata sc) with (∅ : gmap string meta_entry).
  split; [done|]. split; [|split].
  - rewrite dom_record_entries, dom_empty_L, length_map, union_empty_l_L.
    reflexivity.
  - intros i rec Hi.
    replace (Z.of_nat i) with (Z.of_nat 0 + 0 + Z.of_nat i) by lia.
    apply lookup_record_entries. by rewrite list_lookup_fmap, Hi.
  - done.
Qed.

Lemma clear_then_index_witness :
  stored (snd (index_embeddings
                 (JObj [("embeddings", JArr [record 9 9])])
                 (snd (clear_index two_videos)))) =
  map record_vector [record 9 9].
Proof.
  refine (proj1 (clear_then_index two_videos
                   [("embeddings", JArr [record 9 9])] [record 9 9] _)).
  split; [done|]. split; [discriminate|]. repeat constructor.
  exists (JInt 9). eexists. split; [reflexivity|].
  eexists. repeat split; reflexivity.
Defined.

(** ** The order and the origin of search results *)

Lemma insert_hit_sorted h hs :
  StronglySorted dist_le hs -> StronglySorted dist_le (insert_hit h hs).
Proof.
  induction 1 as [|h' hs Hs IH Hall]; simpl.
  - repeat constructor.
  - destruct (Qle_bool (fst h) (fst h')) eqn:Hle.
    + apply Qle_bool_iff in Hle. constructor; [by constructor|].
      constructor; [done|].
      eapply Forall_impl; [exact Hall|]. intros x Hx.
      unfold dist_le in *. by apply Qle_trans with (fst h').
    + assert (dist_le h' h) as Hle'.
      { apply Qlt_le_weak, Qnot_le_lt. intros H. apply Qle_bool_iff in H.
        congruence. }
      constructor; [done|]. by apply insert_hit_Forall.
Qed.

Lemma foldr_insert_hit_sorted l :
  StronglySorted dist_le (foldr insert_hit [] l).
Proof.
  induction l; simpl; [constructor | by apply insert_hit_sorted].
Qed.

Lemma StronglySorted_take {A : Type} (R : A -> A -> Prop) n l :
  StronglySorted R l -> StronglySorted R (take n l).
Proof.
  intros H. revert n. induction H as [|x l Hl IH Hall]; intros [|n]; simpl;
    try constructor; [apply IH | by apply Forall_take].
Qed.

Lemma StronglySorted_omap {A B : Type} (R : A -> A -> Prop)
    (R' : B -> B -> Prop) (f : A -> option B) l :
  (forall x y fx fy, R x y -> f x = Some fx -> f y = Some fy -> R' fx fy) ->
  StronglySorted R l -> StronglySorted R' (omap f l).
Proof.
  intros Hf. induction 1 as [|x l Hl IH Hall]; simpl; [constructor|].
  destruct (f x) as [fx|] eqn:Hx; [|done].
  constructor; [done|]. apply Forall_forall. intros fy Hy.
  apply list_elem_of_omap in Hy as (y & Hy & Hfy).
  rewrite Forall_forall in Hall. eauto.
Qed.

Lemma faiss_search_sorted ix x k :
  StronglySorted hit_le (faiss_search ix x k).
Proof.
  pose proof (faiss_search_nonneg ix x k) as Hnn. unfold faiss_search in *.
  apply Forall_app in Hnn as [Hnn _].
  set (sorted := foldr insert_hit []
                   (imap (fun i v => (sq_l2 x v, Z.of_nat i)) (vectors ix)))
    in *.
  assert (StronglySorted dist_le sorted) as Hs.
  { apply foldr_insert_hit_sorted. }
  apply (StronglySorted_take _ k) in Hs.
  induction Hs as [|h l Hl IH Hall].
  - simpl. induction (k - length sorted)%nat as [|m IHm]; simpl;
      constructor; [done|]. apply Forall_replicate. by left.
  - simpl. apply Forall_cons in Hnn as [Hh Hnn].
    constructor; [by apply IH|]. apply Forall_app. split.
    + eapply Forall_impl; [exact Hall|]. intros y Hy. right. by split.
    + apply Forall_replicate. by left.
Qed.

Lemma survivor_mono vid md h1 h2 r1 r2 :
  hit_le h1 h2 ->
  survivor vid md h1 = Some r1 -> survivor vid md h2 = Some r2 ->
  sim_ge r1 r2.
Proof.
  unfold survivor. intros Hle H1 H2.
  destruct (snd h2 =? -1) eqn:Hpad; [done|].
  destruct Hle as [Hle|[H0 Hle]]; [apply Z.eqb_neq in Hpad; lia|].
  repeat case_match; try done.
  injection H1 as <-. injection H2 as <-.
  exists (reported_similarity (fst h1)), (reported_similarity (fst h2)).
  split; [reflexivity|]. split; [reflexivity|].
  apply RoundingProps.py_round_4_mono. by apply similarity_antitone.
Qed.

Lemma index_search_sorted qs k :
  post (index_search qs k) (fun hits => 0 < k /\ StronglySorted hit_le hits).
Proof.
  intros s a s'. unfold index_search, bind, modify, get_state, raise, ret.
  simpl. repeat (case_match; simpl); try discriminate.
  intros [= <- _]. split; [|apply faiss_search_sorted].
  match goal with H : negb (0 <? k) = false |- _ =>
    apply negb_false_iff, Z.ltb_lt in H; exact H end.
Qed.

(** X11: the results of /search are listed by decreasing similarity: of
    any two results, the earlier one has a similarity at least as large. *)
Theorem search_results_ordered encode data s :
  StronglySorted sim_ge (results_of (fst (search encode data s))).
Proof.
  unfold search, try_except.
  destruct (search_body encode data s) as [[r|e] s'] eqn:E; [|by constructor].
  revert s r s' E.
  change (post (search_body encode data)
            (fun r => StronglySorted sim_ge (results_of r))).
  unfold search_body.
  eapply post_bind; [apply post_any|]. intros absent _.
  destruct absent; [apply post_ret; by constructor|].
  do 5 (eapply post_bind; [apply post_any|]; intros ? _).
  eapply post_bind; [apply post_any|]. intros total _.
  destruct (_ =? 0); [apply post_ret; by constructor|].
  eapply post_bind; [apply post_any|]. intros qv _.
  eapply post_bind; [apply post_any|]. intros k _.
  eapply post_bind; [apply index_search_sorted|]. intros hits [Hk Hhits].
  eapply post_bind; [apply post_any|]. intros s0 _.
  apply post_ret. rewrite results_of_jsonify.
  rewrite collect_take.
  - simpl. apply StronglySorted_take.
    eapply StronglySorted_omap; [|exact Hhits].
    intros h1 h2 r1 r2. apply survivor_mono.
  - simpl. unfold search_k in Hk. destruct (truthy _); lia.
Qed.

Lemma post_state_ret {A : Type} (a : A) (Q : A -> state -> Prop) :
  (forall s, Q a s) -> post_state (ret a) Q.
Proof. intros H s a' s' [= <- <-]. apply H. Qed.

Lemma post_state_bind {A B : Type} (c : M state A) (k : A -> M state B)
    (Q : B -> state -> Prop) :
  (forall a, post_state (k a) Q) -> post_state (bind c k) Q.
Proof.
  intros Hk s b s'. unfold bind.
  destruct (c s) as [[a|e] s1]; [apply Hk | discriminate].
Qed.

Lemma post_state_bind_lift {A B : Type} (r : result A) (k : A -> M state B)
    (Q : B -> state -> Prop) :
  (forall a, r = Ok a -> post_state (k a) Q) -> post_state (bind (lift r) k) Q.
Proof.
  intros Hk s b s'. unfold bind, lift.
  destruct r as [a|e]; [by apply Hk | discriminate].
Qed.

Lemma post_state_get_ret {B : Type} (f : state -> B) (Q : B -> state -> Prop) :
  (forall s, Q (f s) s) ->
  post_state (bind get_state (fun s => ret (f s))) Q.
Proof. intros H s b s' [= <- <-]. apply H. Qed.

Lemma collect_from_metadata data vid k md hits acc :
  py_get data "video_id" JNull = Ok vid ->
  Forall (from_metadata data md) acc ->
  Forall (from_metadata data md) (collect vid k md hits acc).
Proof.
  intros Hvid. revert acc.
  induction hits as [|[dist idx] hits IH]; intros acc Hacc; simpl; [done|].
  destruct (idx =? -1); [by apply IH|].
  destruct (md !! py_str idx) as [meta|] eqn:Hmeta; [|by apply IH].
  destruct (truthy vid && negb (py_eq (video_id meta) vid)) eqn:Hfilter;
    [by apply IH|].
  assert (Forall (from_metadata data md)
            (acc ++ [JObj [("transcript_id", transcript_id meta);
                           ("video_id", video_id meta);
                           ("similarity", JFloat (reported_similarity dist))]]))
    as Hacc'.
  { apply Forall_app. split; [done|]. constructor; [|constructor].
    exists (py_str idx), meta. repeat split; try done.
    intros vid' Hvid' Htruthy. rewrite Hvid in Hvid'. injection Hvid' as <-.
    rewrite Htruthy in Hfilter. simpl in Hfilter.
    by apply negb_false_iff in Hfilter. }
  destruct (_ >=? k); [done | by apply IH].
Qed.

Lemma search_results_from_metadata_aux encode data s :
  Forall (from_metadata data (metadata (snd (search encode data s))))
         (results_of (fst (search encode data s))).
Proof.
  unfold search, try_except.
  destruct (search_body encode data s) as [[r|e] s'] eqn:E; [|by constructor].
  cbn [fst snd]. revert s r s' E.
  change (post_state (search_body encode data)
            (fun r s' => Forall (from_metadata data (metadata s'))
                                (results_of r))).
  unfold search_body.
  apply post_state_bind. intros absent.
  destruct absent; [apply post_state_ret; by constructor|].
  apply post_state_bind. intros query.
  apply post_state_bind_lift. intros vid Hvid.
  do 4 (apply post_state_bind; intros ?).
  destruct (_ =? 0); [apply post_state_ret; by constructor|].
  do 3 (apply post_state_bind; intros ?).
  apply (post_state_get_ret
           (fun s0 => jsonify [("results", JArr (collect vid _ (metadata s0) _ []))])).
  intros s0. rewrite results_of_jsonify.
  by apply collect_from_metadata.
Qed.


(** ** POST /index followed by POST /search *)

Lemma sq_l2_self v : (sq_l2 v v == 0)%Q.
Proof. induction v as [|a v IH]; simpl; [reflexivity|]. rewrite IH. ring. Qed.

(** X13: after a single record is indexed into an empty index, a search
    whose query embeds to the record's vector, with a positive [top_k] and
    no conflicting [video_id], returns exactly that record, with its id,
    the batch's [video_id] and similarity exactly 1. *)
Theorem index_then_search_finds encode s kvs1 rec kvs2 q k :
  vectors (current_index s) = [] ->
  batch_of (d (current_index s)) kvs1 [rec] ->
  assoc "query" kvs2 = Some q ->
  default (JInt 10) (assoc "top_k" kvs2) = JInt k ->
  0 < k ->
  encode [q] = Some [record_vector rec] ->
  truthy (default JNull (assoc "video_id" kvs2)) = false \/
  py_eq (default JNull (assoc "video_id" kvs1))
        (default JNull (assoc "video_id" kvs2)) = true ->
  results_of (fst (search encode (JObj kvs2)
                     (snd (index_embeddings (JObj kvs1) s)))) =
  [JObj [("transcript_id", record_id rec);
         ("video_id", default JNull (assoc "video_id" kvs1));
         ("similarity", JFloat 1)]].
Proof.
  intros Hempty Hb Hq Hk Hpos Henc Hfilter.
  assert (length (record_vector rec) = d (current_index s)) as Hlen.
  { destruct Hb as (_ & _ & Hrec). apply Forall_cons in Hrec as [Hrec _].
    destruct Hrec as (id & v & _ & row & Hrow & Hv & Hl).
    unfold record_vector. by rewrite Hrow, Hv. }
  rewrite (index_batch s kvs1 [rec] Hb). cbn [snd map].
  set (vid1 := default JNull (assoc "video_id" kvs1)).
  set (s1 := indexed vid1 [record_id rec] [record_vector rec] s).
  destruct (indexed_loaded vid1 [record_id rec] [record_vector rec] s)
    as [Hl Hc]. fold s1 in Hl, Hc. rewrite Hempty in Hc. cbn [app] in Hc.
  assert (vectors (current_index s1) <> []) as Hne by by rewrite Hc.
  assert (length (record_vector rec) = d (current_index s1)) as Hdim
    by by rewrite Hc.
  rewrite (search_run encode s1 kvs2 q k (record_vector rec)
             Hq Hk Hpos Hne Henc Hdim).
  cbn [fst]. rewrite results_of_jsonify, Hl, Hc.
  set (vid2 := default JNull (assoc "video_id" kvs2)) in *.
  assert (search_k k vid2 (ntotal (mkIndex (d (current_index s))
                                           [record_vector rec])) = 1) as ->.
  { unfold search_k, ntotal. cbn [vectors length]. destruct (truthy vid2); lia. }
  assert (metadata s1 !! py_str 0 = Some (mkMeta (record_id rec) vid1)) as Hmeta.
  { unfold s1, indexed. cbn [metadata]. unfold ntotal. rewrite Hempty.
    cbn [length record_entries]. apply lookup_insert_eq. }
  unfold faiss_search. cbn [vectors imap foldr insert_hit take length replicate
                            Z.to_nat Pos.to_nat Pos.iter_op Nat.sub app].
  change (Z.to_nat 1) with 1%nat. cbn [take Nat.sub replicate app collect].
  change (Z.of_nat 0) with 0. cbn [Z.eqb].
  rewrite Hmeta. cbn [video_id transcript_id].
  assert (truthy vid2 && negb (py_eq vid1 vid2) = false) as ->.
  { fold vid1 in Hfilter. destruct Hfilter as [-> | ->]; [done|].
    by rewrite andb_false_r. }
  rewrite (reported_similarity_zero _ (sq_l2_self (record_vector rec))).
  cbn [app length]. by destruct (Z.of_nat 1 >=? k).
Qed.

Lemma index_then_search_finds_witness :
  results_of (fst (search (fun _ => Some [record_vector (record 1 5)])
                     (JObj [("query", JStr "cats"); ("video_id", JInt 7);
                            ("top_k", JInt 1)])
                     (snd (index_embeddings
                             (JObj [("video_id", JInt 7);
                                    ("embeddings", JArr [record 1 5])])
                             (boot no_files))))) =
  [JObj [("transcript_id", JInt 1); ("video_id", JInt 7);
         ("similarity", JFloat 1)]].
Proof.
  refine (index_then_search_finds (fun _ => Some [record_vector (record 1 5)])
            (boot no_files)
            [("video_id", JInt 7); ("embeddings", JArr [record 1 5])]
            (record 1 5)
            [("query", JStr "cats"); ("video_id", JInt 7); ("top_k", JInt 1)]
            (JStr "cats") 1 eq_refl _ eq_refl eq_refl _ eq_refl _).
  - split; [done|]. split; [discriminate|]. repeat constructor.
    exists (JInt 1). eexists. split; [reflexivity|].
    eexists. repeat split; reflexivity.
  - lia.
  - right. reflexivity.
Defined.

(** ** An index file without its metadata file *)

Lemma from_metadata_empty data r : ~ from_metadata data ∅ r.
Proof. intros (key & meta & H & _). by rewrite lookup_empty in H. Qed.

(** X14: when the index file exists but the metadata file does not,
    [get_faiss_index] loads the vectors and leaves the metadata empty:
    /health reports the file's vector count as [index_size], while every
    /search returns no result, since no position has a metadata entry. *)
Theorem index_file_without_metadata encode ix data :
  fst (health (boot (mkFiles (Some ix) None))) =
    mkResponse 200 (JObj [("status", JStr "ok");
                          ("model", JStr EMBEDDING_MODEL);
                          ("index_size", JInt (ntotal ix))]) /\
  metadata (loaded (boot (mkFiles (Some ix) None))) = ∅ /\
  results_of (fst (search encode data (boot (mkFiles (Some ix) None)))) = [].
Proof.
  split; [by rewrite health_run|]. split; [done|].
  pose proof (search_results_from_metadata_aux encode data
                (boot (mkFiles (Some ix) None))) as H.
  assert (metadata (snd (search encode data (boot (mkFiles (Some ix) None))))
          = ∅) as Hmd.
  { destruct (search_store_kept encode data (boot (mkFiles (Some ix) None)))
      as [Hs|Hs]; unfold store in Hs; by injection Hs as _ -> _. }
  rewrite Hmd in H.
  destruct (results_of _) as [|r rs]; [done|].
  apply Forall_cons in H as [H _]. by apply from_metadata_empty in H.
Qed.

End EmbedExtra.

(** * Further properties of the transcription service *)

Module WhisperExtra.

Import Whisper MonadProps.
Local Open Scope py_scope.

(** ** Rounding to two and three decimals *)

Lemma py_round_2 q :
  (py_round q 2 == inject_Z (round_half_even (q * 100)) / 100)%Q.
Proof. unfold py_round. rewrite Qred_correct. reflexivity. Qed.

Lemma py_round_3 q :
  (py_round q 3 == inject_Z (round_half_even (q * 1000)) / 1000)%Q.
Proof. unfold py_round. rewrite Qred_correct. reflexivity. Qed.

Lemma py_round_2_mono q1 q2 : (q1 <= q2 -> py_round q1 2 <= py_round q2 2)%Q.
Proof.
  intros Hle. rewrite !py_round_2.
  assert (q1 * 100 <= q2 * 100)%Q as H by lra.
  apply RoundingProps.round_half_even_mono in H. rewrite Zle_Qle in H.
  unfold Qdiv. apply Qmult_le_compat_r; [done|]. by vm_compute.
Qed.

Lemma py_round_2_near q :
  (py_round q 2 - (1 # 200) <= q /\ q <= py_round q 2 + (1 # 200))%Q.
Proof.
  rewrite !py_round_2.
  destruct (RoundingProps.round_half_even_near (q * 100)) as [Hlo Hhi].
  set (z := inject_Z _) in *. unfold Qdiv. change (/ 100)%Q with (1 # 100)%Q.
  split; lra.
Qed.

Lemma py_round_3_near q :
  (py_round q 3 - (1 # 2000) <= q /\ q <= py_round q 3 + (1 # 2000))%Q.
Proof.
  rewrite !py_round_3.
  destruct (RoundingProps.round_half_even_near (q * 1000)) as [Hlo Hhi].
  set (z := inject_Z _) in *. unfold Qdiv. change (/ 1000)%Q with (1 # 1000)%Q.
  split; lra.
Qed.

Lemma py_round_3_nonneg q : (0 <= q -> 0 <= py_round q 3)%Q.
Proof.
  intros Hq. rewrite py_round_3.
  assert (0 * 1000 <= q * 1000)%Q as H by lra.
  apply RoundingProps.round_half_even_mono in H.
  change (0 * 1000)%Q with (inject_Z 0) in H.
  rewrite RoundingProps.round_half_even_Z, Zle_Qle in H.
  unfold Qdiv. change (/ 1000)%Q with (1 # 1000)%Q.
  set (z := inject_Z (round_half_even _)) in *. change (inject_Z 0) with 0%Q in H.
  lra.
Qed.

(** X15: a reported segment keeps the model's times to within 0.005 s and
    never inverts them (start <= end is kept by the rounding); its
    confidence is the sign-inverted average log-probability to within
    0.0005, not negative when the log-probability is not positive, and
    [null] exactly when the model gave none. *)
Theorem format_segment_values seg :
  (exists x y,
      assoc "start" (format_segment seg) = Some (JFloat x) /\
      assoc "end" (format_segment seg) = Some (JFloat y) /\
      (x - (1 # 200) <= seg_start seg /\ seg_start seg <= x + (1 # 200))%Q /\
      (y - (1 # 200) <= seg_end seg /\ seg_end seg <= y + (1 # 200))%Q /\
      (seg_start seg <= seg_end seg -> x <= y)%Q) /\
  match seg_avg_logprob seg with
  | Some lp =>
      exists c,
        assoc "confidence" (format_segment seg) = Some (JFloat c) /\
        (c - (1 # 2000) <= - lp /\ - lp <= c + (1 # 2000))%Q /\
        (lp <= 0 -> 0 <= c)%Q
  | None => assoc "confidence" (format_segment seg) = Some JNull
  end.
Proof.
  split.
  - exists (py_round (seg_start seg) 2), (py_round (seg_end seg) 2).
    repeat split; try reflexivity;
      try apply py_round_2_near. apply py_round_2_mono.
  - unfold format_segment. destruct (seg_avg_logprob seg) as [lp|]; [|done].
    exists (py_round (lp * -1) 3). split; [reflexivity|].
    assert (lp * -1 == - lp)%Q as E by ring.
    destruct (py_round_3_near (lp * -1)) as [Hlo Hhi].
    split; [split; lra|].
    intros Hlp. apply py_round_3_nonneg. lra.
Qed.

Lemma format_segment_values_witness :
  exists x y,
    assoc "start" (format_segment (mkRaw 0 (7 # 2) "hi" None)) = Some (JFloat x) /\
    assoc "end" (format_segment (mkRaw 0 (7 # 2) "hi" None)) = Some (JFloat y) /\
    (x <= y)%Q.
Proof.
  destruct (proj1 (format_segment_values (mkRaw 0 (7 # 2) "hi" None)))
    as (x & y & Hx & Hy & _ & _ & Hxy).
  exists x, y. split; [exact Hx|]. split; [exact Hy|].
  apply Hxy. discriminate.
Defined.

(** ** Trimmed text *)





(** ** POST /transcribe *)

Section WithEnv.

Variable path_exists : json -> option bool.
Variable whisper_transcribe : json -> json -> option transcription.

(** What /transcribe does once the path names an existing file. *)
Lemma transcribe_reaches_model s kvs p :
  assoc "audio_path" kvs = Some p ->
  path_exists p = Some true ->
  transcribe path_exists whisper_transcribe (JObj kvs) s =
  match whisper_transcribe p (default JNull (assoc "language" kvs)) with
  | Some result =>
      (jsonify
         [("segments", JArr (map JObj (map format_segment (segments result))));
          ("language", JStr (default "unknown" (language result)));
          ("duration", duration (map format_segment (segments result)))],
       after_call p (default JNull (assoc "language" kvs)) s)
  | None =>
      (jsonify_code [("error", JStr (exn_str ModelError))] 500,
       after_call p (default JNull (assoc "language" kvs)) s)
  end.
Proof.
  intros Hk Hp. unfold transcribe, try_except, transcribe_body.
  rewrite (bind_lift_ok _ _ _ false)
    by (rewrite missing_obj, Hk; by rewrite bool_decide_false).
  cbv beta iota. cbn [py_getitem py_get]. rewrite Hk. cbn [of_option].
  rewrite (bind_lift_ok _ _ _ p) by done.
  rewrite (bind_lift_ok _ _ _ true) by by rewrite Hp.
  cbn [negb]. unfold bind at 1, get_model. unfold after_call.
  destruct (model s);
    rewrite (bind_lift_ok _ _ _ (default JNull (assoc "language" kvs))) by done;
    unfold bind, lift, ret;
    by destruct (whisper_transcribe p _).
Qed.

Lemma segments_of_jsonify l rest :
  segments_of (jsonify (("segments", JArr l) :: rest)) = l.
Proof. reflexivity. Qed.

Lemma last_map {A B : Type} (f : A -> B) l : last (map f l) = f <$> last l.
Proof.
  induction l as [|a [|b l] IH]; [done..|]. exact IH.
Qed.

(** X16: when the path names an existing file and the model returns, the
    answer is a 200 with one reported segment per segment of the model, in
    the model's order; [language] is the model's, or ["unknown"] when it
    gave none; [duration] is the reported (rounded) end of the last segment,
    or the integer 0 when there is no segment.  The model is called exactly
    once, and is loaded first if it was not. *)
Theorem transcribe_success s kvs p result :
  assoc "audio_path" kvs = Some p ->
  path_exists p = Some true ->
  whisper_transcribe p (default JNull (assoc "language" kvs)) = Some result ->
  status (fst (transcribe path_exists whisper_transcribe (JObj kvs) s)) = 200 /\
  segments_of (fst (transcribe path_exists whisper_transcribe (JObj kvs) s)) =
    map (fun seg => JObj (format_segment seg)) (segments result) /\
  py_getitem (body (fst (transcribe path_exists whisper_transcribe (JObj kvs) s)))
             "language" = Ok (JStr (default "unknown" (language result))) /\
  py_getitem (body (fst (transcribe path_exists whisper_transcribe (JObj kvs) s)))
             "duration" =
    Ok (match last (segments result) with
        | Some seg => JFloat (py_round (seg_end seg) 2)
        | None => JInt 0
        end) /\
  trace (snd (transcribe path_exists whisper_transcribe (JObj kvs) s)) =
    trace s ++ (if model s then [] else [LoadModel]) ++
    [Transcribe p (default JNull (assoc "language" kvs))] /\
  model (snd (transcribe path_exists whisper_transcribe (JObj kvs) s)) = true.
Proof.
  intros Hk Hp Hres. rewrite (transcribe_reaches_model s kvs p Hk Hp), Hres.
  cbn [fst snd]. split; [done|]. split.
  - rewrite segments_of_jsonify. by rewrite map_map.
  - split; [done|]. split.
    + cbn. f_equal. unfold duration. rewrite last_map.
      by destruct (last (segments result)).
    + unfold after_call. destruct (model s) eqn:Hm; cbn.
      * by rewrite Hm.
      * by rewrite <- app_assoc.
Qed.

(** X17: for a JSON-object body the status of /transcribe is decided by
    the checks in their order: 400 exactly when [audio_path] is absent, 404
    exactly when it is present and names no existing file, 200 exactly when
    it names an existing file and the model returns. *)
Theorem transcribe_status s kvs :
  (status (fst (transcribe path_exists whisper_transcribe (JObj kvs) s)) = 400 <->
   assoc "audio_path" kvs = None) /\
  (status (fst (transcribe path_exists whisper_transcribe (JObj kvs) s)) = 404 <->
   exists p, assoc "audio_path" kvs = Some p /\ path_exists p = Some false) /\
  (status (fst (transcribe path_exists whisper_transcribe (JObj kvs) s)) = 200 <->
   exists p result,
     assoc "audio_path" kvs = Some p /\ path_exists p = Some true /\
     whisper_transcribe p (default JNull (assoc "language" kvs)) = Some result).
Proof.
  destruct (assoc "audio_path" kvs) as [p|] eqn:Hk.
  - destruct (path_exists p) as [[|]|] eqn:Hp.
    + rewrite (transcribe_reaches_model s kvs p Hk Hp).
      destruct (whisper_transcribe p _) as [result|] eqn:Hres; cbn [fst status jsonify jsonify_code].
      * split; [split; discriminate|]. split; [split; [discriminate|]|].
        -- intros (p' & [= <-] & Hp'). congruence.
        -- split; [eauto|done].
      * split; [split; discriminate|]. split; [split; [discriminate|]|].
        -- intros (p' & [= <-] & Hp'). congruence.
        -- split; [discriminate|]. intros (p' & result & [= <-] & _ & H).
           congruence.
    + rewrite (WhisperProps.transcribe_no_file path_exists whisper_transcribe
                 s kvs p Hk Hp). cbn [fst status].
      split; [split; discriminate|]. split; [split; [eauto|done]|].
      split; [discriminate|]. intros (p' & result & [= <-] & H & _). congruence.
    + assert (transcribe path_exists whisper_transcribe (JObj kvs) s =
              (jsonify_code [("error", JStr (exn_str TypeError))] 500, s)) as ->.
      { unfold transcribe, try_except, transcribe_body.
        rewrite (bind_lift_ok _ _ _ false)
          by (rewrite missing_obj, Hk; by rewrite bool_decide_false).
        cbv beta iota. cbn [py_getitem]. rewrite Hk. cbn [of_option].
        rewrite (bind_lift_ok _ _ _ p) by done.
        by rewrite (bind_lift_raise _ _ _ TypeError) by by rewrite Hp. }
      cbn [fst status jsonify_code].
      split; [split; discriminate|]. split; [split; [discriminate|]|].
      * intros (p' & [= <-] & Hp'). congruence.
      * split; [discriminate|]. intros (p' & result & [= <-] & H & _).
        congruence.
  - rewrite (WhisperProps.transcribe_no_path path_exists whisper_transcribe
               s kvs Hk). cbn [fst status].
    split; [done|]. split; [split; [discriminate|]|].
    + by intros (p' & H & _).
    + split; [discriminate|]. by intros (p' & result & H & _).
Qed.


(** ** The model is loaded once *)

Lemma speech_load_count_app tr e :
  load_count (tr ++ [e]) =
  (load_count tr + match e with LoadModel => 1 | _ => 0 end)%nat.
Proof.
  induction tr as [|e' tr IH]; simpl.
  - by destruct e.
  - destruct e'; simpl; rewrite IH; lia.
Qed.

Lemma speech_loaded_once_get_model : preserves loaded_once get_model.
Proof.
  intros s [H1 H2]. unfold get_model.
  destruct (model s) eqn:Hm; cbn [snd].
  - split; [done | intros ?; congruence].
  - split; [|done]. cbn. rewrite speech_load_count_app, H2 by done. simpl. lia.
Qed.

Lemma loaded_once_log_call p lang :
  preserves loaded_once (fun s => (Ok tt, log (Transcribe p lang) s)).
Proof.
  intros s [H1 H2]. cbn. unfold loaded_once. cbn.
  rewrite speech_load_count_app. simpl. rewrite Nat.add_0_r. by split.
Qed.

#[local] Hint Resolve speech_loaded_once_get_model loaded_once_log_call : primitives.

Lemma loaded_once_transcribe data s :
  loaded_once s ->
  loaded_once (snd (transcribe path_exists whisper_transcribe data s)).
Proof.
  intros Hs. unfold transcribe. apply preserves_try; [|done].
  unfold transcribe_body. step_preserves.
Qed.

Lemma transcribe_state_cases data s :
  snd (transcribe path_exists whisper_transcribe data s) = s \/
  model (snd (transcribe path_exists whisper_transcribe data s)) = true.
Proof.
  unfold transcribe, try_except, transcribe_body, bind, lift, ret, get_model.
  destruct (missing "audio_path" data) as [[|]|]; cbn; auto.
  destruct (py_getitem data "audio_path") as [p|]; cbn; auto.
  destruct (path_exists p) as [[|]|]; cbn; auto.
  right. destruct (model s) eqn:Hm;
    destruct (py_get data "language" JNull) as [lang|]; cbn; auto;
    by destruct (whisper_transcribe p lang).
Qed.

(** X18: whatever sequence of /transcribe requests a process handles, the
    speech model is loaded at most once, and not at all as long as no
    request got past the checks of its body and of the file. *)
Theorem speech_model_loaded_once datas :
  (load_count (trace (run path_exists whisper_transcribe datas
                          (mkState false []))) <= 1)%nat /\
  (model (run path_exists whisper_transcribe datas (mkState false [])) = false ->
   trace (run path_exists whisper_transcribe datas (mkState false [])) = []).
Proof.
  assert (forall s, loaded_once s /\ (model s = false -> trace s = []) ->
            loaded_once (run path_exists whisper_transcribe datas s) /\
            (model (run path_exists whisper_transcribe datas s) = false ->
             trace (run path_exists whisper_transcribe datas s) = [])) as H.
  { induction datas as [|data datas IH]; intros s Hs; [done|].
    simpl. apply IH. destruct Hs as [Hs Hidle].
    split; [by apply loaded_once_transcribe|].
    destruct (transcribe_state_cases data s) as [-> | ->]; [done|].
    discriminate. }
  destruct (H (mkState false [])) as [[H1 _] H2].
  - split; [split; [simpl; lia | done] | done].
  - by split.
Qed.

End WithEnv.

Lemma transcribe_success_witness :
  segments_of
    (fst (transcribe (fun _ => Some true)
            (fun _ _ => Some (mkTranscription
                                [mkRaw 0 (7 # 2) " hi " (Some (- (1 # 4))%Q)]
                                None))
            (JObj [("audio_path", JStr "a.wav")]) (mkState false []))) =
  [JObj (format_segment (mkRaw 0 (7 # 2) " hi " (Some (- (1 # 4))%Q)))].
Proof.
  exact (proj1 (proj2
    (transcribe_success (fun _ => Some true)
       (fun _ _ => Some (mkTranscription
                           [mkRaw 0 (7 # 2) " hi " (Some (- (1 # 4))%Q)] None))
       (mkState false []) [("audio_path", JStr "a.wav")] (JStr "a.wav")
       (mkTranscription [mkRaw 0 (7 # 2) " hi " (Some (- (1 # 4))%Q)] None)
       eq_refl eq_refl eq_refl))).
Defined.

End WhisperExtra.
